(** * MCTC-MIB-A connection tester: a model of the probe and of the batch run

    The development embeds the two Python programs of the repository,
    [MCTC_TESTER.py] (class [MCTCTester]) and [script.py]
    (function [test_serial_connection]), and proves properties of the
    open / flush / write / wait / read / classify / close cycle they run
    against a serial port.

    The serial library and the console are outside the repository.  They are
    modelled by a scripted transport (what each call on a port answers) and by
    the trace of the calls a program makes, in the order it makes them. *)

From Stdlib Require Import List String DecimalString NArith ZArith Bool Lia.
From Stdlib.Strings Require Import Byte.
Import ListNotations.

Local Open Scope N_scope.

(** ** Python values: [bytes], [str], and the two text operations used *)

Module Py.

(** A [bytes] object: a sequence of octets. *)
Definition bytes := list byte.

(** A [str] object: a sequence of Unicode code points. *)
Definition str := list N.

(** Truth value of a sequence ([if response:]): true unless empty. *)
Definition truthy {A : Type} (l : list A) : bool :=
  match l with
  | [] => false
  | _ :: _ => true
  end.

(** [len(s)]. *)
Definition len {A : Type} (l : list A) : N := N.of_nat (List.length l).

(** [a == b] on [str]. *)
Fixpoint str_eqb (a b : str) : bool :=
  match a, b with
  | [], [] => true
  | x :: a', y :: b' => (x =? y) && str_eqb a' b'
  | _, _ => false
  end.

(** *** [bytes.decode()]: strict UTF-8 *)

Definition in_range (lo hi b : N) : bool := (lo <=? b) && (b <=? hi).

Definition is_cont (b : N) : bool := in_range 0x80 0xBF b.

(** Payload bits of a continuation octet. *)
Definition low6 (b : N) : N := N.land b 0x3F.

(** Allowed range of the second octet, by leading octet: rules out
    overlong forms, surrogates and code points above U+10FFFF. *)
Definition second_ok (b1 b2 : N) : bool :=
  if b1 =? 0xE0 then in_range 0xA0 0xBF b2
  else if b1 =? 0xED then in_range 0x80 0x9F b2
  else if b1 =? 0xF0 then in_range 0x90 0xBF b2
  else if b1 =? 0xF4 then in_range 0x80 0x8F b2
  else is_cont b2.

(** [None] stands for the [UnicodeDecodeError] of the strict codec. *)
Fixpoint utf8_decode (bs : list N) : option str :=
  match bs with
  | [] => Some []
  | b1 :: r1 =>
      if b1 <? 0x80 then
        option_map (cons b1) (utf8_decode r1)
      else if in_range 0xC2 0xDF b1 then
        match r1 with
        | b2 :: r2 =>
            if is_cont b2 then
              option_map
                (cons (N.shiftl (N.land b1 0x1F) 6 + low6 b2))
                (utf8_decode r2)
            else None
        | _ => None
        end
      else if in_range 0xE0 0xEF b1 then
        match r1 with
        | b2 :: b3 :: r3 =>
            if second_ok b1 b2 && is_cont b3 then
              option_map
                (cons (N.shiftl (N.land b1 0x0F) 12
                       + N.shiftl (low6 b2) 6 + low6 b3))
                (utf8_decode r3)
            else None
        | _ => None
        end
      else if in_range 0xF0 0xF4 b1 then
        match r1 with
        | b2 :: b3 :: b4 :: r4 =>
            if second_ok b1 b2 && is_cont b3 && is_cont b4 then
              option_map
                (cons (N.shiftl (N.land b1 0x07) 18
                       + N.shiftl (low6 b2) 12
                       + N.shiftl (low6 b3) 6 + low6 b4))
                (utf8_decode r4)
            else None
        | _ => None
        end
      else None
  end.

Definition octets (b : bytes) : list N := map Byte.to_N b.

(** A literal of the source text, which is a UTF-8 file. *)
Definition lit (s : string) : str :=
  match utf8_decode (octets (list_byte_of_string s)) with
  | Some t => t
  | None => []
  end.

(** *** [str.strip()] with no argument *)

(** The code points [str.isspace] accepts. *)
Definition isspace (c : N) : bool :=
  in_range 0x09 0x0D c || in_range 0x1C 0x20 c
  || (c =? 0x85) || (c =? 0xA0) || (c =? 0x1680)
  || in_range 0x2000 0x200A c
  || (c =? 0x2028) || (c =? 0x2029) || (c =? 0x202F)
  || (c =? 0x205F) || (c =? 0x3000).

Fixpoint lstrip (s : str) : str :=
  match s with
  | [] => []
  | c :: s' => if isspace c then lstrip s' else s
  end.

Definition rstrip (s : str) : str := rev (lstrip (rev s)).

(** Leading and trailing white space are both removed. *)
Definition strip (s : str) : str := lstrip (rstrip s).

(** [s * n] for a [str]. *)
Fixpoint times (s : str) (n : nat) : str :=
  match n with
  | O => []
  | S n' => s ++ times s n'
  end.

(** The format [{s:w}]: a string is padded with spaces on the right up to
    width [w], and never cut. *)
Definition pad (w : nat) (s : str) : str :=
  s ++ repeat 0x20 (w - List.length s)%nat.

Definition nl : str := [0x0A].

End Py.

Import Py.

(** ** Exceptions, console and serial calls *)

(** The exception classes the two programs tell apart.  [SerialException]
    stands for the class of the serial library and its subclasses;
    [OtherException] for any other subclass of [Exception];
    [KeyboardInterrupt] for the classes below [BaseException] only, which
    [except Exception] lets through. *)
Inductive exn : Type :=
| SerialException (msg : str)
| UnicodeDecodeError (object : bytes)
| OtherException (name msg : str)
| KeyboardInterrupt.

(** [isinstance(e, serial.SerialException)]. *)
Definition is_SerialException (e : exn) : bool :=
  match e with
  | SerialException _ => true
  | _ => false
  end.

(** [isinstance(e, Exception)]. *)
Definition is_Exception (e : exn) : bool :=
  match e with
  | KeyboardInterrupt => false
  | _ => true
  end.

(** Named constants of the serial library, as the programs pass them. *)
Inductive bytesize_t : Type := FIVEBITS | SIXBITS | SEVENBITS | EIGHTBITS.
Inductive parity_t : Type :=
  PARITY_NONE | PARITY_EVEN | PARITY_ODD | PARITY_MARK | PARITY_SPACE.
Inductive stopbits_t : Type :=
  STOPBITS_ONE | STOPBITS_ONE_POINT_FIVE | STOPBITS_TWO.

(** Keyword arguments of [serial.Serial(...)]; [timeout] in seconds. *)
Record settings : Type := {
  baudrate : N;
  bytesize : bytesize_t;
  parity : parity_t;
  stopbits : stopbits_t;
  timeout : N
}.

(** An open port object; it is identified by the port it was opened on. *)
Definition handle : Type := str.

(** What a program does to the outside, in order.  [EOpen] is a constructor
    call that returned a handle, [EOpenFailed] one that raised.  The other
    serial events record that the call was made.  Durations are in
    milliseconds, so that [time.sleep(0.5)] is [ESleep 500]. *)
Inductive event : Type :=
| EPrint (line : str)
| EPrintError (prefix : str) (e : exn)
| EPrintObject (prefix : str) (ser : handle)
| EInput (prompt : str)
| ESleep (ms : N)
| EComports
| EOpen (port : str) (cfg : settings)
| EOpenFailed (port : str) (cfg : settings) (e : exn)
| EResetInputBuffer (ser : handle)
| EResetOutputBuffer (ser : handle)
| EWrite (ser : handle) (data : bytes)
| EReadline (ser : handle)
| EClose (ser : handle).

(** A computation: the events it produced, and a value or the exception
    that ended it.  Exceptions come from the calls on a port, from the
    listing call and from [bytes.decode()]; [print], [input] and
    [time.sleep] are taken to return. *)
Definition M (A : Type) : Type := (exn + A) * list event.

Definition ret {A : Type} (a : A) : M A := (inr a, []).

Definition raise {A : Type} (e : exn) : M A := (inl e, []).

Definition bind {A B : Type} (m : M A) (f : A -> M B) : M B :=
  match m with
  | (inl e, t) => (inl e, t)
  | (inr a, t) => let (r, t') := f a in (r, t ++ t')
  end.

(** [try: m  except ... as e: h e]; a handler that matches no clause
    re-raises. *)
Definition try_except {A : Type} (m : M A) (h : exn -> M A) : M A :=
  match m with
  | (inl e, t) => let (r, t') := h e in (r, t ++ t')
  | (inr a, t) => (inr a, t)
  end.

Definition emit (ev : event) : M unit := (inr tt, [ev]).

Notation "x <- m ;; k" := (bind m (fun x => k))
  (at level 61, m at next level, right associativity).
Notation "m ;; k" := (bind m (fun _ => k))
  (at level 61, right associativity).

Definition value {A : Type} (m : M A) : exn + A := fst m.
Definition trace {A : Type} (m : M A) : list event := snd m.

Definition print (line : str) : M unit := emit (EPrint line).
Definition input (prompt : str) : M unit := emit (EInput prompt).
Definition sleep (ms : N) : M unit := emit (ESleep ms).

(** [bytes.decode()] as a computation. *)
Definition decode (b : bytes) : M str :=
  match utf8_decode (octets b) with
  | Some t => ret t
  | None => raise (UnicodeDecodeError b)
  end.

(** ** The scripted transport *)

(** How one port answers each call: [None] for a call that returns, [Some e]
    for one that raises [e]. *)
Record endpoint : Type := {
  on_open : option exn;
  on_reset_input_buffer : option exn;
  on_reset_output_buffer : option exn;
  on_write : bytes -> option exn;
  on_readline : exn + bytes;
  on_close : option exn
}.

(** One entry of [serial.tools.list_ports.comports()]. *)
Record ListPortInfo : Type := {
  device : str;
  description : str
}.

(** The machine the program runs on. *)
Record host : Type := {
  listing : exn + list ListPortInfo;
  attached : str -> endpoint
}.

Definition call (ev : event) (r : option exn) : M unit :=
  match r with
  | None => (inr tt, [ev])
  | Some e => (inl e, [ev])
  end.

Definition Serial (h : host) (port : str) (cfg : settings) : M handle :=
  match on_open (attached h port) with
  | None => (inr port, [EOpen port cfg])
  | Some e => (inl e, [EOpenFailed port cfg e])
  end.

Definition reset_input_buffer (h : host) (ser : handle) : M unit :=
  call (EResetInputBuffer ser) (on_reset_input_buffer (attached h ser)).

Definition reset_output_buffer (h : host) (ser : handle) : M unit :=
  call (EResetOutputBuffer ser) (on_reset_output_buffer (attached h ser)).

Definition write (h : host) (ser : handle) (data : bytes) : M unit :=
  call (EWrite ser data) (on_write (attached h ser) data).

Definition readline (h : host) (ser : handle) : M bytes :=
  (on_readline (attached h ser), [EReadline ser]).

Definition close (h : host) (ser : handle) : M unit :=
  call (EClose ser) (on_close (attached h ser)).

Definition comports (h : host) : M (list ListPortInfo) :=
  (listing h, [EComports]).

(** [input(prompt)] where the line typed is used: [answer] is that line. *)
Definition ask (prompt answer : str) : M str := (inr answer, [EInput prompt]).

(** A value or an exception computed without any call to the outside. *)
Definition pure {A : Type} (r : exn + A) : M A := (r, []).

(** [l[i]] for an index that is not negative. *)
Definition getitem {A : Type} (l : list A) (i : Z) : M A :=
  match nth_error l (Z.to_nat i) with
  | Some a => ret a
  | None =>
      raise (OtherException (lit "IndexError") (lit "list index out of range"))
  end.

(** ** [MCTC_TESTER.py] *)

Module MCTC_TESTER.

(** The state of an [MCTCTester] object. *)
Record MCTCTester : Type := {
  ports : list ListPortInfo
}.

(** [__init__]. *)
Definition init : MCTCTester := {| ports := [] |}.

(** The keyword arguments [test_connection] opens a port with. *)
Definition serial_parameters : settings := {|
  baudrate := 9600;
  bytesize := EIGHTBITS;
  parity := PARITY_NONE;
  stopbits := STOPBITS_ONE;
  timeout := 2
|}.

(** [b"*IDN?\r\n"]. *)
Definition test_command : bytes :=
  list_byte_of_string "*IDN?" ++ [x0d; x0a].

(** Rendering of a length in an f-string. *)
Definition decimal (n : N) : str := lit (NilEmpty.string_of_uint (N.to_uint n)).

Section OnHost.

Variable h : host.

(** The body of the [try] block of [test_connection]. *)
Definition test_connection_body (port_name connection_type : str) : M str :=
  print (nl ++ lit "📡 Testing " ++ connection_type ++ lit ": " ++ port_name) ;;
  print (times (lit "─") 50) ;;
  ser <- Serial h port_name serial_parameters ;;
  reset_input_buffer h ser ;;
  reset_output_buffer h ser ;;
  shown <- decode test_command ;;
  print (lit "📤 Sending: " ++ strip shown) ;;
  write h ser test_command ;;
  sleep 500 ;;
  response <- readline h ser ;;
  result <-
    (if truthy response then
       decoded <- decode response ;;
       let decoded_response := strip decoded in
       print (lit "📥 Received: " ++ decoded_response) ;;
       if truthy decoded_response && (0 <? len decoded_response) then
         print (lit "✅ SUCCESS: Device responded!") ;;
         ret (lit "SUCCESS")
       else
         print (lit "⚠️  WARNING: Empty response") ;;
         ret (lit "EMPTY_RESPONSE")
     else
       print (lit "❌ ERROR: No response") ;;
       ret (lit "NO_RESPONSE")) ;;
  close h ser ;;
  ret result.

(** The two [except] clauses of [test_connection], tried in order. *)
Definition test_connection_handler (e : exn) : M str :=
  if is_SerialException e then
    emit (EPrintError (lit "❌ SERIAL ERROR: ") e) ;;
    ret (lit "SERIAL_ERROR")
  else if is_Exception e then
    emit (EPrintError (lit "❌ UNEXPECTED ERROR: ") e) ;;
    ret (lit "UNKNOWN_ERROR")
  else raise e.

Definition test_connection (port_name connection_type : str) : M str :=
  try_except (test_connection_body port_name connection_type)
             test_connection_handler.

(** [detect_ports]: the new state of the object and the returned flag. *)
Definition detect_ports (self : MCTCTester) : M (MCTCTester * bool) :=
  print (lit "🔍 Scanning for available serial ports...") ;;
  sleep 1000 ;;
  found <- comports h ;;
  let self := {| ports := found |} in
  if negb (truthy (ports self)) then
    print (lit "❌ No serial ports found!") ;;
    print (lit "   - Check USB cables") ;;
    print (lit "   - Verify drivers are installed") ;;
    print (lit "   - Try rescanning") ;;
    ret (self, false)
  else
    print (lit "✅ Found " ++ decimal (len (ports self)) ++ lit " port(s)") ;;
    ret (self, true).

(** The [for port in self.ports] loop of [test_all_ports]; [results] is the
    list the loop appends to. *)
Fixpoint test_each (todo : list ListPortInfo) (results : list (str * str))
  : M (list (str * str)) :=
  match todo with
  | [] => ret results
  | port :: todo' =>
      result <- test_connection (device port) (description port) ;;
      let results := results ++ [(device port, result)] in
      print [] ;;
      sleep 1000 ;;
      test_each todo' results
  end.

(** The status column of one summary line. *)
Definition status_of (result : str) : str :=
  if str_eqb result (lit "SUCCESS") then lit "✅ SUCCESS" else lit "❌ FAILED".

(** The [for port, result in results] loop of [test_all_ports]. *)
Fixpoint print_summary (results : list (str * str)) : M unit :=
  match results with
  | [] => ret tt
  | (port, result) :: results' =>
      let status := status_of result in
      print (pad 15 port ++ lit " : " ++ status) ;;
      print_summary results'
  end.

Definition test_all_ports (self : MCTCTester) : M unit :=
  if negb (truthy (ports self)) then
    print (lit "❌ No ports to test!") ;;
    input (lit "Press Enter to continue...") ;;
    ret tt
  else
    print (lit "🧪 Testing all available ports..." ++ nl) ;;
    results <- test_each (ports self) [] ;;
    print (lit "📊 TEST SUMMARY:") ;;
    print (times (lit "─") 40) ;;
    print_summary results ;;
    input (nl ++ lit "Press Enter to continue...") ;;
    ret tt.

End OnHost.

(** One row of the table of [display_ports]: the body of its loop for the
    port at index [i]. *)
Definition display_row (i : nat) (port : ListPortInfo) : str :=
  let port_num := decimal (N.of_nat i + 1) in
  let port_name := pad 12 (device port) in
  let description := pad 40 (firstn 40 (description port)) in
  lit "│ " ++ pad 4 port_num ++ lit " │ " ++ port_name ++ lit " │ "
  ++ description ++ lit " │".

(** The [for i, port in enumerate(self.ports)] loop, from index [i] on. *)
Fixpoint display_rows (i : nat) (todo : list ListPortInfo) : M unit :=
  match todo with
  | [] => ret tt
  | port :: todo' =>
      print (display_row i port) ;;
      display_rows (S i) todo'
  end.

Definition display_ports (self : MCTCTester) : M unit :=
  if negb (truthy (ports self)) then
    print (lit "No ports available") ;;
    ret tt
  else
    print (lit "┌──────┬──────────────┬────────────────────────────────────────────────┐") ;;
    print (lit "│  #   │    Port      │            Description               ──────────│") ;;
    print (lit "├──────┼──────────────┼──────────────────────────────────────┤") ;;
    display_rows 0 (ports self) ;;
    print (lit "└──────┴──────────────┴──────────────────────────────────────┘").

Section Interactive.

Variable h : host.

(** The built-ins [str.isdigit] and [int], which rest on the Unicode
    tables of the interpreter. *)
Variable isdigit : str -> bool.
Variable int : str -> exn + Z.

(** [test_single_port]; [typed] is the line typed at the question. *)
Definition test_single_port (self : MCTCTester) (typed : str) : M unit :=
  display_ports self ;;
  if negb (truthy (ports self)) then
    input (nl ++ lit "Press Enter to continue...") ;;
    ret tt
  else
    answer <- ask (nl ++ lit "Enter port number or port name: ") typed ;;
    let choice := strip answer in
    (if isdigit choice then
       n <- pure (int choice) ;;
       let port_num := (n - 1)%Z in
       if ((0 <=? port_num) && (port_num <? Z.of_N (len (ports self))))%Z then
         port <- getitem (ports self) port_num ;;
         test_connection h (device port) (lit "Port " ++ device port) ;;
         ret tt
       else
         print (lit "❌ Invalid port number!")
     else
       test_connection h choice (lit "Port " ++ choice) ;;
       ret tt) ;;
    input (nl ++ lit "Press Enter to continue...").

End Interactive.

End MCTC_TESTER.

(** ** [script.py] *)

Module script.

Definition serial_parameters : settings := {|
  baudrate := 9600;
  bytesize := EIGHTBITS;
  parity := PARITY_NONE;
  stopbits := STOPBITS_ONE;
  timeout := 2
|}.

Definition test_command : bytes :=
  list_byte_of_string "*IDN?" ++ [x0d; x0a].

Section OnHost.

Variable h : host.

(** The body of the [try] block of [test_serial_connection]. *)
Definition test_serial_connection_body (port_name connection_type : str)
  : M unit :=
  ser <- Serial h port_name serial_parameters ;;
  print (nl ++ times (lit "=") 50) ;;
  print (lit "Testing " ++ connection_type ++ lit " connection on " ++ port_name) ;;
  emit (EPrintObject (lit "Serial configuration: ") ser) ;;
  shown <- decode test_command ;;
  print (lit "Sending command: " ++ strip shown) ;;
  write h ser test_command ;;
  response <- readline h ser ;;
  (if truthy response then
     decoded <- decode response ;;
     print (lit "Received: " ++ strip decoded) ;;
     print (lit "SUCCESS: Valid response from " ++ connection_type ++ lit " port")
   else
     print (lit "ERROR: No response from device")) ;;
  close h ser.

(** The [except Exception] clause. *)
Definition test_serial_connection_handler (port_name : str) (e : exn) : M unit :=
  if is_Exception e then
    emit (EPrintError (lit "ERROR on " ++ port_name ++ lit ": ") e)
  else raise e.

Definition test_serial_connection (port_name connection_type : str) : M unit :=
  try_except (test_serial_connection_body port_name connection_type)
             (test_serial_connection_handler port_name).

End OnHost.

Section Main.

Variable h : host.

(** The [for i, port in enumerate(ports)] loop of the main block, from
    index [i] on. *)
Fixpoint list_ports (i : nat) (todo : list ListPortInfo) : M unit :=
  match todo with
  | [] => ret tt
  | port :: todo' =>
      print (MCTC_TESTER.decimal (N.of_nat i + 1) ++ lit ". " ++ device port
             ++ lit " - " ++ description port) ;;
      list_ports (S i) todo'
  end.

(** The block under [if __name__ == "__main__":]; [typed_serial] and
    [typed_usb] are the lines typed at the two questions. *)
Definition main (typed_serial typed_usb : str) : M unit :=
  print (lit "MCTC-MIB-A Connection Tester") ;;
  print (times (lit "=") 50) ;;
  ports <- comports h ;;
  print (nl ++ lit "Available serial ports:") ;;
  list_ports 0 ports ;;
  answer <- ask (nl ++ lit "Enter dedicated SERIAL port name (e.g. COM1): ")
                typed_serial ;;
  let serial_port := strip answer in
  (if truthy serial_port then
     test_serial_connection h serial_port (lit "SERIAL")
   else ret tt) ;;
  answer <- ask (nl ++ lit "Enter USB-SERIAL port name (e.g. /dev/ttyUSB0): ")
                typed_usb ;;
  let usb_port := strip answer in
  (if truthy usb_port then
     test_serial_connection h usb_port (lit "USB-SERIAL")
   else ret tt) ;;
  print (nl ++ lit "Testing complete. Review output above.").

End Main.

End script.

(** ** Scripted ports used in the examples *)

Module Fixtures.

(** A port on which every call returns and [readline] gives [reply]. *)
Definition replying (reply : bytes) : endpoint := {|
  on_open := None;
  on_reset_input_buffer := None;
  on_reset_output_buffer := None;
  on_write := fun _ => None;
  on_readline := inr reply;
  on_close := None
|}.

(** A port that cannot be opened. *)
Definition unopenable (e : exn) : endpoint := {|
  on_open := Some e;
  on_reset_input_buffer := None;
  on_reset_output_buffer := None;
  on_write := fun _ => None;
  on_readline := inr [];
  on_close := None
|}.

(** A port that opens, and then fails on [write]. *)
Definition write_fails (e : exn) : endpoint := {|
  on_open := None;
  on_reset_input_buffer := None;
  on_reset_output_buffer := None;
  on_write := fun _ => Some e;
  on_readline := inr [];
  on_close := None
|}.

(** A port that opens, takes the command, and fails on [readline]. *)
Definition read_fails (e : exn) : endpoint := {|
  on_open := None;
  on_reset_input_buffer := None;
  on_reset_output_buffer := None;
  on_write := fun _ => None;
  on_readline := inl e;
  on_close := None
|}.

Definition busy : exn := SerialException (lit "could not open port").
Definition unplugged : exn := SerialException (lit "device disconnected").
Definition bad_argument : exn := OtherException (lit "ValueError") (lit "bad port").

(** [b"MCTC-100\r\n"], [b"\r\n"] and the single octet [b"\xff"]. *)
Definition id_line : bytes := list_byte_of_string "MCTC-100" ++ [x0d; x0a].
Definition blank_line : bytes := [x0d; x0a].
Definition binary_line : bytes := [xff].

(** A machine on which every port name leads to the same port. *)
Definition only (p : endpoint) : host := {|
  listing := inr [];
  attached := fun _ => p
|}.

Definition COM1 : str := lit "COM1".
Definition COM2 : str := lit "COM2".
Definition COM3 : str := lit "COM3".

Definition bench_ports : list ListPortInfo :=
  [ {| device := COM1; description := lit "USB Serial" |};
    {| device := COM2; description := lit "Bluetooth" |};
    {| device := COM3; description := lit "USB Serial" |} ].

(** Three listed ports; the second one cannot be opened. *)
Definition bench : host := {|
  listing := inr bench_ports;
  attached := fun port =>
    if str_eqb port COM2 then unopenable busy else replying id_line
|}.

(** A machine with no serial port, and one whose listing call fails. *)
Definition bare : host := {|
  listing := inr [];
  attached := fun _ => unopenable busy
|}.

Definition broken_listing : host := {|
  listing := inl (OtherException (lit "OSError") (lit "listing failed"));
  attached := fun _ => unopenable busy
|}.

(** A port on which everything returns but [close]. *)
Definition close_fails (reply : bytes) (e : exn) : endpoint := {|
  on_open := None;
  on_reset_input_buffer := None;
  on_reset_output_buffer := None;
  on_write := fun _ => None;
  on_readline := inr reply;
  on_close := Some e
|}.

(** Three listed ports; the user interrupts while the second is opened. *)
Definition interrupted_bench : host := {|
  listing := inr bench_ports;
  attached := fun port =>
    if str_eqb port COM2 then unopenable KeyboardInterrupt
    else replying id_line
|}.

(** [str.isdigit] and [int] on strings of ASCII digits, for the examples. *)
Definition ascii_isdigit (s : str) : bool :=
  truthy s && forallb (in_range 0x30 0x39) s.

(** A digit test that also accepts the superscript two, as [str.isdigit]
    does, while [int] rejects it. *)
Definition digit_or_superscript_two (s : str) : bool :=
  truthy s && forallb (fun c => in_range 0x30 0x39 c || (c =? 0xB2)) s.

Definition ascii_int (s : str) : exn + Z :=
  if ascii_isdigit s then
    inr (fold_left (fun acc c => (10 * acc + Z.of_N (c - 0x30))%Z) s 0%Z)
  else
    inl (OtherException (lit "ValueError") (lit "invalid literal for int()")).

End Fixtures.

(** ** Reading a trace, and describing a scripted port

    Nothing in this module is program text.  It holds the vocabulary of the
    statements below: what to read off a trace, what a scripted port is
    assumed to do, and [probe_run], the runs a probe is expected to have,
    against which the program is compared in [probe_run_complete]. *)

Module Observe.

Import MCTC_TESTER.

(** Console traffic, as opposed to calls on the port and waits. *)
Definition is_console (ev : event) : bool :=
  match ev with
  | EPrint _ | EPrintError _ _ | EPrintObject _ _ | EInput _ => true
  | _ => false
  end.

(** The trace without its console traffic. *)
Definition wire (t : list event) : list event :=
  filter (fun ev => negb (is_console ev)) t.

(** Number of handles acquired. *)
Definition opens (t : list event) : nat :=
  List.length (filter (fun ev => match ev with EOpen _ _ => true | _ => false end) t).

(** Number of [close] calls. *)
Definition closes (t : list event) : nat :=
  List.length (filter (fun ev => match ev with EClose _ => true | _ => false end) t).

(** Number of [readline] calls. *)
Definition reads (t : list event) : nat :=
  List.length (filter (fun ev => match ev with EReadline _ => true | _ => false end) t).

(** What was handed to [write], in order. *)
Fixpoint sent (t : list event) : list bytes :=
  match t with
  | [] => []
  | EWrite _ data :: t' => data :: sent t'
  | _ :: t' => sent t'
  end.

(** The ports on which an open was attempted, in order. *)
Fixpoint attempts (t : list event) : list str :=
  match t with
  | [] => []
  | EOpen port _ :: t' => port :: attempts t'
  | EOpenFailed port _ _ :: t' => port :: attempts t'
  | _ :: t' => attempts t'
  end.

(** The lines printed, in order. *)
Fixpoint printed (t : list event) : list str :=
  match t with
  | [] => []
  | EPrint line :: t' => line :: printed t'
  | _ :: t' => printed t'
  end.

Definition is_None {A : Type} (o : option A) : bool :=
  match o with
  | None => true
  | Some _ => false
  end.

(** The port opens and both buffer resets return. *)
Definition ready_to_send (ep : endpoint) : bool :=
  is_None (on_open ep) && is_None (on_reset_input_buffer ep)
  && is_None (on_reset_output_buffer ep).

(** The port opens, is flushed, takes the command and answers [r]. *)
Definition line_received (ep : endpoint) (r : bytes) : Prop :=
  on_open ep = None /\ on_reset_input_buffer ep = None /\
  on_reset_output_buffer ep = None /\ on_write ep test_command = None /\
  on_readline ep = inr r.

(** The first call of the open / flush / write / read sequence that raises,
    with what it raises. *)
Definition first_failure (ep : endpoint) : option exn :=
  match on_open ep with
  | Some e => Some e
  | None =>
  match on_reset_input_buffer ep with
  | Some e => Some e
  | None =>
  match on_reset_output_buffer ep with
  | Some e => Some e
  | None =>
  match on_write ep test_command with
  | Some e => Some e
  | None =>
  match on_readline ep with
  | inl e => Some e
  | inr _ => None
  end end end end end.

Definition ordinary (o : option exn) : bool :=
  match o with
  | Some e => is_Exception e
  | None => true
  end.

(** No call on the port raises outside the [Exception] hierarchy (no user
    interrupt arrives during a call). *)
Definition uninterrupted (ep : endpoint) : bool :=
  ordinary (on_open ep) && ordinary (on_reset_input_buffer ep)
  && ordinary (on_reset_output_buffer ep)
  && ordinary (on_write ep test_command)
  && ordinary (match on_readline ep with inl e => Some e | inr _ => None end)
  && ordinary (on_close ep).

(** The result string an [except] clause of [test_connection] gives [e]. *)
Definition error_string (e : exn) : str :=
  if is_SerialException e then lit "SERIAL_ERROR" else lit "UNKNOWN_ERROR".

(** The strings [test_connection] has a [return] or an assignment for. *)
Definition outcome_strings : list str :=
  [lit "SUCCESS"; lit "EMPTY_RESPONSE"; lit "NO_RESPONSE";
   lit "SERIAL_ERROR"; lit "UNKNOWN_ERROR"].

(** The calls of one complete probe of [MCTC_TESTER.py] on port [p]. *)
Definition full_cycle (p : str) : list event :=
  [EOpen p serial_parameters; EResetInputBuffer p; EResetOutputBuffer p;
   EWrite p test_command; ESleep 500; EReadline p; EClose p].

(** What the [except] clauses of [test_connection] make of [e]. *)
Definition handled (e : exn) : exn + str :=
  if is_Exception e then inr (error_string e) else inl e.

(** The three results decided by the line read: [classified r s] when the
    line [r] is given the result [s]. *)
Inductive classified : bytes -> str -> Prop :=
| classified_none :
    classified [] (lit "NO_RESPONSE")
| classified_empty (r : bytes) (t : str) :
    r <> [] -> utf8_decode (octets r) = Some t -> strip t = [] ->
    classified r (lit "EMPTY_RESPONSE")
| classified_text (r : bytes) (t : str) :
    utf8_decode (octets r) = Some t -> strip t <> [] ->
    classified r (lit "SUCCESS").

(** The runs of one probe on port [p], scripted by [ep]: how far the cycle
    gets, and the value the probe ends with. *)
Inductive probe_run (ep : endpoint) (p : str)
  : exn + str -> list event -> Prop :=
| run_open_failed (e : exn) :
    on_open ep = Some e ->
    probe_run ep p (handled e) [EOpenFailed p serial_parameters e]
| run_flush_input_failed (e : exn) :
    on_open ep = None -> on_reset_input_buffer ep = Some e ->
    probe_run ep p (handled e) (firstn 2 (full_cycle p))
| run_flush_output_failed (e : exn) :
    on_open ep = None -> on_reset_input_buffer ep = None ->
    on_reset_output_buffer ep = Some e ->
    probe_run ep p (handled e) (firstn 3 (full_cycle p))
| run_write_failed (e : exn) :
    ready_to_send ep = true -> on_write ep test_command = Some e ->
    probe_run ep p (handled e) (firstn 4 (full_cycle p))
| run_read_failed (e : exn) :
    ready_to_send ep = true -> on_write ep test_command = None ->
    on_readline ep = inl e ->
    probe_run ep p (handled e) (firstn 6 (full_cycle p))
| run_undecodable (r : bytes) :
    line_received ep r -> utf8_decode (octets r) = None ->
    probe_run ep p (handled (UnicodeDecodeError r)) (firstn 6 (full_cycle p))
| run_classified (r : bytes) (s : str) :
    line_received ep r -> classified r s -> on_close ep = None ->
    probe_run ep p (inr s) (full_cycle p)
| run_close_failed (r : bytes) (s : str) (e : exn) :
    line_received ep r -> classified r s -> on_close ep = Some e ->
    probe_run ep p (handled e) (full_cycle p).

(** [entry] is what probing [port] alone gives. *)
Definition probed (h : host) (port : ListPortInfo) (entry : str * str) : Prop :=
  fst entry = device port
  /\ value (test_connection h (device port) (description port))
     = inr (snd entry).

(** Time spent in [time.sleep], in milliseconds. *)
Fixpoint slept (t : list event) : N :=
  match t with
  | [] => 0
  | ESleep ms :: t' => ms + slept t'
  | _ :: t' => slept t'
  end.

(** A text with at least one code point that is not white space. *)
Definition visible (t : str) : bool := existsb (fun c => negb (isspace c)) t.

(** One line of the summary table. *)
Definition summary_line (entry : str * str) : str :=
  pad 15 (fst entry) ++ lit " : " ++ status_of (snd entry).

End Observe.

Import Fixtures Observe.

(** * Properties *)

(** ** Text: literals, comparison, trimming *)

Lemma str_eqb_eq (a b : str) : str_eqb a b = true <-> a = b.
Proof.
  revert b; induction a as [|x a IH]; intros [|y b]; cbn;
    try (split; (reflexivity || discriminate)).
  rewrite andb_true_iff, N.eqb_eq, IH.
  split; [intros [-> ->]; reflexivity | intros [= -> ->]; auto].
Qed.

Lemma truthy_false_iff {A : Type} (l : list A) : truthy l = false <-> l = [].
Proof. destruct l; cbn; split; (reflexivity || discriminate). Qed.

Lemma len_positive {A : Type} (x : A) (l : list A) : (0 <? len (x :: l)) = true.
Proof. unfold len. apply N.ltb_lt. cbn [List.length]. lia. Qed.

Lemma lstrip_split (s : str) :
  exists a, s = a ++ lstrip s /\ forallb isspace a = true.
Proof.
  induction s as [|c s (a & Hs & Ha)]; cbn [lstrip].
  - exists []. split; reflexivity.
  - destruct (isspace c) eqn:Hc.
    + exists (c :: a). cbn. rewrite Hc, Ha. split; [f_equal; exact Hs | reflexivity].
    + exists []. split; reflexivity.
Qed.

Lemma lstrip_head (s : str) (c : N) (s' : str) :
  lstrip s = c :: s' -> isspace c = false.
Proof.
  induction s as [|d s IH]; cbn [lstrip]; [discriminate|].
  destruct (isspace d) eqn:Hd; [exact IH|].
  intros [= <- _]. exact Hd.
Qed.

Lemma lstrip_blank (s : str) : forallb isspace s = true -> lstrip s = [].
Proof.
  induction s as [|c s IH]; cbn; [reflexivity|].
  destruct (isspace c); [exact IH | discriminate].
Qed.

Lemma forallb_rev {A : Type} (f : A -> bool) (l : list A) :
  forallb f (rev l) = forallb f l.
Proof.
  induction l as [|x l IH]; cbn; [reflexivity|].
  rewrite forallb_app, IH. cbn. rewrite andb_true_r. apply andb_comm.
Qed.

Lemma rstrip_split (s : str) :
  exists b, s = rstrip s ++ b /\ forallb isspace b = true.
Proof.
  unfold rstrip. destruct (lstrip_split (rev s)) as (a & Hs & Ha).
  exists (rev a). rewrite forallb_rev. split; [|exact Ha].
  rewrite <- rev_app_distr, <- Hs, rev_involutive. reflexivity.
Qed.

Lemma rstrip_last (s s' : str) (c : N) :
  rstrip s = s' ++ [c] -> isspace c = false.
Proof.
  unfold rstrip. intros H.
  apply (f_equal (@rev N)) in H. rewrite rev_involutive, rev_app_distr in H.
  cbn in H. exact (lstrip_head _ _ _ H).
Qed.

(** [strip] removes a run of white space at each end and nothing else. *)
Lemma strip_split (t : str) :
  exists a b, t = a ++ strip t ++ b
              /\ forallb isspace a = true /\ forallb isspace b = true.
Proof.
  unfold strip.
  destruct (rstrip_split t) as (b & Ht & Hb).
  destruct (lstrip_split (rstrip t)) as (a & Hr & Ha).
  exists a, b. repeat split; [|exact Ha|exact Hb].
  rewrite app_assoc, <- Hr. exact Ht.
Qed.

Lemma strip_first (t : str) (c : N) (s : str) :
  strip t = c :: s -> isspace c = false.
Proof. apply lstrip_head. Qed.

Lemma strip_last (t s : str) (c : N) :
  strip t = s ++ [c] -> isspace c = false.
Proof.
  unfold strip. intros H.
  destruct (lstrip_split (rstrip t)) as (a & Hr & _).
  rewrite H, app_assoc in Hr. exact (rstrip_last _ _ _ Hr).
Qed.

Lemma strip_nil_iff (t : str) : strip t = [] <-> forallb isspace t = true.
Proof.
  split.
  - intros H. destruct (strip_split t) as (a & b & Ht & Ha & Hb).
    rewrite Ht, H, !forallb_app, Ha, Hb. reflexivity.
  - intros H. unfold strip, rstrip.
    rewrite (lstrip_blank (rev t)) by (rewrite forallb_rev; exact H).
    reflexivity.
Qed.

(** Trimming at the end only leaves an empty text in the same cases. *)
Lemma rstrip_nil_iff (t : str) : rstrip t = [] <-> strip t = [].
Proof.
  rewrite strip_nil_iff. split.
  - intros H. destruct (rstrip_split t) as (b & Ht & Hb).
    rewrite Ht, H. exact Hb.
  - intros H. unfold rstrip.
    rewrite (lstrip_blank (rev t)) by (rewrite forallb_rev; exact H).
    reflexivity.
Qed.

(** ** Running a computation: value and trace, call by call *)

Lemma value_bind {A B : Type} (m : M A) (f : A -> M B) :
  value (bind m f)
  = match value m with inl e => inl e | inr a => value (f a) end.
Proof.
  destruct m as [[e|a] t]; cbn; [reflexivity|]. destruct (f a); reflexivity.
Qed.

Lemma trace_bind {A B : Type} (m : M A) (f : A -> M B) :
  trace (bind m f)
  = trace m ++ match value m with inl _ => [] | inr a => trace (f a) end.
Proof.
  destruct m as [[e|a] t]; cbn; [now rewrite app_nil_r|].
  destruct (f a); reflexivity.
Qed.

Lemma value_try_except {A : Type} (m : M A) (h : exn -> M A) :
  value (try_except m h)
  = match value m with inl e => value (h e) | inr a => inr a end.
Proof.
  destruct m as [[e|a] t]; cbn; [|reflexivity]. destruct (h e); reflexivity.
Qed.

Lemma trace_try_except {A : Type} (m : M A) (h : exn -> M A) :
  trace (try_except m h)
  = trace m ++ match value m with inl e => trace (h e) | inr _ => [] end.
Proof.
  destruct m as [[e|a] t]; cbn; [|now rewrite app_nil_r].
  destruct (h e); reflexivity.
Qed.

Lemma value_call (ev : event) (r : option exn) :
  value (call ev r) = match r with None => inr tt | Some e => inl e end.
Proof. now destruct r. Qed.

Lemma trace_call (ev : event) (r : option exn) : trace (call ev r) = [ev].
Proof. now destruct r. Qed.

Lemma value_Serial (h : host) (p : str) (c : settings) :
  value (Serial h p c)
  = match on_open (attached h p) with None => inr p | Some e => inl e end.
Proof. unfold Serial. now destruct (on_open _). Qed.

Lemma trace_Serial (h : host) (p : str) (c : settings) :
  trace (Serial h p c)
  = [match on_open (attached h p) with
     | None => EOpen p c
     | Some e => EOpenFailed p c e
     end].
Proof. unfold Serial. now destruct (on_open _). Qed.

Lemma value_decode (b : bytes) :
  value (decode b)
  = match utf8_decode (octets b) with
    | Some t => inr t
    | None => inl (UnicodeDecodeError b)
    end.
Proof. unfold decode. now destruct (utf8_decode _). Qed.

Lemma trace_decode (b : bytes) : trace (decode b) = [].
Proof. unfold decode. now destruct (utf8_decode _). Qed.

(** The command is plain ASCII: decoding it for display cannot fail. *)
Lemma test_command_text :
  utf8_decode (octets MCTC_TESTER.test_command) = Some (lit "*IDN?" ++ [13; 10]).
Proof. reflexivity. Qed.

Lemma script_test_command : script.test_command = MCTC_TESTER.test_command.
Proof. reflexivity. Qed.

Create Rewrite HintDb run.
#[local] Hint Rewrite
  @value_bind @trace_bind @value_try_except @trace_try_except
  value_call trace_call value_Serial trace_Serial value_decode trace_decode
  script_test_command test_command_text @len_positive : run.

#[local] Arguments lit : simpl never.
#[local] Arguments times : simpl never.
#[local] Arguments strip : simpl never.
#[local] Arguments pad : simpl never.
#[local] Arguments utf8_decode : simpl never.
#[local] Arguments octets : simpl never.
#[local] Arguments MCTC_TESTER.test_command : simpl never.

(** Unfold the program, then alternate rewriting by the equations above and
    by the facts known about the port. *)
Ltac run :=
  unfold MCTC_TESTER.test_connection, MCTC_TESTER.test_connection_body,
         script.test_serial_connection, script.test_serial_connection_body,
         reset_input_buffer, reset_output_buffer, write, close;
  repeat first
    [ progress autorewrite with run
    | progress cbn [readline print sleep emit ret raise value trace fst snd
                    truthy andb]
    | progress cbv beta iota
    | match goal with
      | H : _ = _ |- _ => rewrite H
      end ].

(** Split on the next thing the port, the codec or the text decides. *)
Ltac fork :=
  match goal with
  | |- context [on_open ?x] =>
      destruct (on_open x) as [?e|] eqn:?
  | |- context [on_reset_input_buffer ?x] =>
      destruct (on_reset_input_buffer x) as [?e|] eqn:?
  | |- context [on_reset_output_buffer ?x] =>
      destruct (on_reset_output_buffer x) as [?e|] eqn:?
  | |- context [on_write ?x ?d] =>
      destruct (on_write x d) as [?e|] eqn:?
  | |- context [on_readline ?x] =>
      destruct (on_readline x) as [?e|[|? ?]] eqn:?
  | |- context [utf8_decode (octets ?b)] =>
      destruct (utf8_decode (octets b)) as [?t|] eqn:?
  | |- context [strip ?t] =>
      destruct (strip t) as [|? ?] eqn:?
  | |- context [on_close ?x] =>
      destruct (on_close x) as [?e|] eqn:?
  end.

Ltac explore := repeat (run; try fork).

Import MCTC_TESTER.

(** Distinct literals are told apart by evaluating them. *)
Ltac differ :=
  let H := fresh in
  intro H; vm_compute in H; discriminate H.

(** ** One probe of [MCTC_TESTER.py] *)

Lemma handler_value (e : exn) : value (test_connection_handler e) = handled e.
Proof. destruct e; reflexivity. Qed.

Lemma handler_wire (e : exn) : wire (trace (test_connection_handler e)) = [].
Proof. destruct e; reflexivity. Qed.

Lemma wire_app (t u : list event) : wire (t ++ u) = wire t ++ wire u.
Proof. apply filter_app. Qed.

#[local] Hint Rewrite handler_value handler_wire wire_app : run.

Lemma ready_to_send_intro (ep : endpoint) :
  on_open ep = None -> on_reset_input_buffer ep = None ->
  on_reset_output_buffer ep = None -> ready_to_send ep = true.
Proof. unfold ready_to_send. now intros -> -> ->. Qed.

#[local] Hint Resolve ready_to_send_intro : core.
#[local] Hint Constructors classified : core.
#[local] Hint Unfold line_received : core.

(** Every run of [test_connection] is one of the runs of [probe_run]. *)
Lemma probe_run_complete (h : host) (p ct : str) :
  probe_run (attached h p) p
            (value (test_connection h p ct))
            (wire (trace (test_connection h p ct))).
Proof.
  explore; cbn [wire filter negb is_console app].
  all: try solve [ econstructor; eauto 10 ].
  all: try solve [ eapply run_classified; eauto 10; econstructor; eauto; congruence ].
  all: try solve [ eapply run_close_failed; eauto 10; econstructor; eauto; congruence ].
  all: try solve [ eapply run_undecodable; eauto 10 ].
Qed.

(** The three plain cases: a device that identifies itself, one that sends
    an empty line, one that stays silent. *)
Example probe_of_identifying_device :
  let run := test_connection (only (replying id_line)) COM1 COM1 in
  value run = inr (lit "SUCCESS")
  /\ In (lit "📥 Received: MCTC-100") (printed (trace run)).
Proof. vm_compute. auto 10. Qed.

Example probe_of_blank_line :
  value (test_connection (only (replying blank_line)) COM1 COM1)
  = inr (lit "EMPTY_RESPONSE").
Proof. reflexivity. Qed.

Example probe_of_silent_device :
  value (test_connection (only (replying [])) COM1 COM1)
  = inr (lit "NO_RESPONSE").
Proof. reflexivity. Qed.

Example probe_interrupted :
  value (test_connection (only (unopenable KeyboardInterrupt)) COM1 COM1)
  = inl KeyboardInterrupt.
Proof. reflexivity. Qed.

Lemma ready_to_send_elim (ep : endpoint) :
  ready_to_send ep = true ->
  on_open ep = None /\ on_reset_input_buffer ep = None
  /\ on_reset_output_buffer ep = None.
Proof.
  unfold ready_to_send.
  destruct (on_open ep), (on_reset_input_buffer ep),
    (on_reset_output_buffer ep); cbn; intros; try discriminate; auto.
Qed.

(** Bring what is known of the port to plain equations on its fields. *)
Ltac port_facts :=
  repeat match goal with
         | H : line_received _ _ |- _ => destruct H as (? & ? & ? & ? & ?)
         | H : ready_to_send _ = true |- _ =>
             apply ready_to_send_elim in H; destruct H as (? & ? & ?)
         end.

(** Use the known answers of the port in hypothesis [Hf]. *)
Ltac port_known Hf :=
  repeat match goal with
         | H : on_open _ = _ |- _ => rewrite H in Hf
         | H : on_reset_input_buffer _ = _ |- _ => rewrite H in Hf
         | H : on_reset_output_buffer _ = _ |- _ => rewrite H in Hf
         | H : on_write _ _ = _ |- _ => rewrite H in Hf
         | H : on_readline _ = _ |- _ => rewrite H in Hf
         | H : on_close _ = _ |- _ => rewrite H in Hf
         end.

(** Case analysis on the run of a probe; [same_line] identifies the line of
    the run with the line the port is known to answer. *)
Ltac runs_of h p ct :=
  destruct (probe_run_complete h p ct); port_facts.

Ltac same_line r :=
  match goal with
  | H : on_readline _ = inr r, H' : on_readline _ = inr ?r' |- _ =>
      assert (r' = r) by congruence; subst r'
  end.

Lemma handled_outcome (e : exn) :
  match handled e with
  | inr s => In s outcome_strings
  | inl e' => is_Exception e' = false
  end.
Proof. destruct e; cbn; auto 10. Qed.

Lemma classified_outcome (r : bytes) (s : str) :
  classified r s -> In s outcome_strings.
Proof. destruct 1; cbn; auto. Qed.

(** Whatever the port does, the probe returns one of its five strings, or is
    ended by an exception that is not an [Exception]. *)
Lemma probe_outcome_or_interrupt (h : host) (p ct : str) :
  match value (test_connection h p ct) with
  | inr s => In s outcome_strings
  | inl e => is_Exception e = false
  end.
Proof.
  destruct (probe_run_complete h p ct);
    first [ apply handled_outcome | eapply classified_outcome; eassumption ].
Qed.

Lemma handled_ordinary (e : exn) :
  is_Exception e = true -> handled e = inr (error_string e).
Proof. unfold handled. now intros ->. Qed.

Lemma uninterrupted_elim (ep : endpoint) :
  uninterrupted ep = true ->
  ordinary (on_open ep) = true
  /\ ordinary (on_reset_input_buffer ep) = true
  /\ ordinary (on_reset_output_buffer ep) = true
  /\ ordinary (on_write ep test_command) = true
  /\ (forall e, on_readline ep = inl e -> is_Exception e = true)
  /\ ordinary (on_close ep) = true.
Proof.
  unfold uninterrupted. rewrite !andb_true_iff.
  intros (((((Ho & Hi) & Hu) & Hw) & Hr) & Hc). repeat split; auto.
  intros e He. now rewrite He in Hr.
Qed.

Lemma ordinary_elim (o : option exn) (e : exn) :
  ordinary o = true -> o = Some e -> is_Exception e = true.
Proof. now intros H ->. Qed.

Lemma handled_returns (e : exn) :
  is_Exception e = true ->
  exists s, handled e = inr s /\ In s outcome_strings.
Proof.
  intros He. exists (error_string e). split; [now apply handled_ordinary|].
  destruct e; cbn; auto 10.
Qed.

(** With no interrupt the probe returns, and returns one of the five. *)
Lemma probe_returns (h : host) (p ct : str) :
  uninterrupted (attached h p) = true ->
  exists s, value (test_connection h p ct) = inr s /\ In s outcome_strings.
Proof.
  intros Hu. apply uninterrupted_elim in Hu.
  destruct Hu as (Ho & Hi & Hu & Hw & Hr & Hc).
  destruct (probe_run_complete h p ct) as
    [e He|e _ He|e _ _ He|e _ He|e _ _ He|r _ _|r s _ Hs _|r s e _ _ He];
    try (apply handled_returns; eauto using ordinary_elim).
  eauto using classified_outcome.
Qed.

(** The first call that raises decides the result. *)
Lemma probe_failure (h : host) (p ct : str) (e : exn) :
  first_failure (attached h p) = Some e ->
  value (test_connection h p ct) = handled e.
Proof.
  unfold first_failure. intros Hf.
  runs_of h p ct; port_known Hf; congruence.
Qed.

Lemma classified_decodes (r : bytes) (s : str) :
  classified r s -> utf8_decode (octets r) <> None.
Proof. destruct 1; [discriminate | congruence | congruence]. Qed.

(** A line that does not decode ends in the second [except] clause. *)
Lemma probe_undecodable (h : host) (p ct : str) (r : bytes) :
  line_received (attached h p) r -> utf8_decode (octets r) = None ->
  value (test_connection h p ct) = inr (lit "UNKNOWN_ERROR")
  /\ wire (trace (test_connection h p ct)) = firstn 6 (full_cycle p).
Proof.
  intros Hl Hd. port_facts.
  runs_of h p ct; try congruence; try same_line r.
  - split; reflexivity.
  - exfalso. eapply classified_decodes; eassumption.
  - exfalso. eapply classified_decodes; eassumption.
Qed.

(** A line that decodes is given one of the three results, unless [close]
    raises. *)
Lemma probe_classified (h : host) (p ct : str) (r : bytes) :
  line_received (attached h p) r -> on_close (attached h p) = None ->
  utf8_decode (octets r) <> None ->
  exists s, classified r s
            /\ value (test_connection h p ct) = inr s
            /\ wire (trace (test_connection h p ct)) = full_cycle p.
Proof.
  intros Hl Hc Hd. port_facts.
  runs_of h p ct; try congruence; same_line r; eauto.
Qed.

Lemma classified_functional (r : bytes) (s s' : str) :
  classified r s -> classified r s' -> s = s'.
Proof.
  intros H H'. inversion H; subst; inversion H'; subst;
    repeat match goal with
           | E : utf8_decode (octets []) = Some _ |- _ =>
               cbv in E; injection E as <-
           end; try congruence;
    exfalso;
    match goal with
    | N : strip [] <> [] |- _ => apply N; reflexivity
    end.
Qed.

(** *** What the trace of a probe shows *)

Lemma sent_wire (t : list event) : sent (wire t) = sent t.
Proof. unfold wire. induction t as [|[] t IH]; cbn; congruence. Qed.

Lemma attempts_wire (t : list event) : attempts (wire t) = attempts t.
Proof. unfold wire. induction t as [|[] t IH]; cbn; congruence. Qed.

Lemma opens_wire (t : list event) : opens (wire t) = opens t.
Proof. unfold opens, wire. induction t as [|[] t IH]; cbn; congruence. Qed.

Lemma closes_wire (t : list event) : closes (wire t) = closes t.
Proof. unfold closes, wire. induction t as [|[] t IH]; cbn; congruence. Qed.

Lemma reads_wire (t : list event) : reads (wire t) = reads t.
Proof. unfold reads, wire. induction t as [|[] t IH]; cbn; congruence. Qed.

(** Use the known answers of the port in the goal. *)
Ltac port_known_goal :=
  repeat match goal with
         | H : on_open _ = _ |- _ => rewrite H
         | H : on_reset_input_buffer _ = _ |- _ => rewrite H
         | H : on_reset_output_buffer _ = _ |- _ => rewrite H
         | H : on_write _ _ = _ |- _ => rewrite H
         | H : on_readline _ = _ |- _ => rewrite H
         | H : on_close _ = _ |- _ => rewrite H
         end.

(** One open is attempted per probe, on the port asked for. *)
Lemma probe_attempts (h : host) (p ct : str) :
  attempts (trace (test_connection h p ct)) = [p].
Proof. rewrite <- attempts_wire. runs_of h p ct; reflexivity. Qed.

(** The only thing ever written is the command, once, after both resets. *)
Lemma probe_sent (h : host) (p ct : str) :
  sent (trace (test_connection h p ct))
  = if ready_to_send (attached h p) then [test_command] else [].
Proof.
  rewrite <- sent_wire. unfold ready_to_send.
  runs_of h p ct; port_known_goal; reflexivity.
Qed.

(** [readline] is called once, when the command was written, and never
    otherwise. *)
Lemma probe_reads (h : host) (p ct : str) :
  reads (trace (test_connection h p ct))
  = if ready_to_send (attached h p)
       && is_None (on_write (attached h p) test_command)
    then 1%nat else 0%nat.
Proof.
  rewrite <- reads_wire. unfold ready_to_send.
  runs_of h p ct; port_known_goal; reflexivity.
Qed.

(** The calls of a probe are an initial part of the full cycle. *)
Lemma probe_wire_prefix (h : host) (p ct : str) :
  (exists e, on_open (attached h p) = Some e
             /\ wire (trace (test_connection h p ct))
                = [EOpenFailed p serial_parameters e])
  \/ (exists n, (2 <= n <= 7)%nat
                /\ wire (trace (test_connection h p ct))
                   = firstn n (full_cycle p)).
Proof.
  runs_of h p ct; eauto;
    right; eexists; (split; [|reflexivity || (symmetry; apply (firstn_all (full_cycle p)))]);
    cbn; lia.
Qed.

(** On a path without fault the handle is closed once. *)
Lemma probe_closes_on_clean_path (h : host) (p ct : str) (r : bytes) :
  line_received (attached h p) r -> utf8_decode (octets r) <> None ->
  opens (trace (test_connection h p ct)) = 1%nat
  /\ closes (trace (test_connection h p ct)) = 1%nat.
Proof.
  intros Hl Hd. rewrite <- opens_wire, <- closes_wire. port_facts.
  runs_of h p ct; try congruence; try same_line r;
    (congruence || (split; reflexivity)).
Qed.

(** After a fault between open and close, [close] is not reached. *)
Lemma probe_leaks_on_fault (h : host) (p ct : str) (e : exn) :
  on_open (attached h p) = None ->
  first_failure (attached h p) = Some e ->
  opens (trace (test_connection h p ct)) = 1%nat
  /\ closes (trace (test_connection h p ct)) = 0%nat.
Proof.
  intros Ho Hf. rewrite <- opens_wire, <- closes_wire.
  unfold first_failure in Hf.
  runs_of h p ct; port_known Hf; try congruence; split; reflexivity.
Qed.

Lemma probe_leaks_on_binary_line (h : host) (p ct : str) (r : bytes) :
  line_received (attached h p) r -> utf8_decode (octets r) = None ->
  opens (trace (test_connection h p ct)) = 1%nat
  /\ closes (trace (test_connection h p ct)) = 0%nat.
Proof.
  intros Hl Hd. rewrite <- opens_wire, <- closes_wire.
  destruct (probe_undecodable h p ct r Hl Hd) as [_ ->]. split; reflexivity.
Qed.

Lemma M_ext {A : Type} (m m' : M A) :
  value m = value m' -> trace m = trace m' -> m = m'.
Proof. destruct m, m'; cbn; congruence. Qed.

(** The probe depends on the machine through the probed port only. *)
Lemma probe_local (h h' : host) (p ct : str) :
  attached h p = attached h' p ->
  test_connection h p ct = test_connection h' p ct.
Proof.
  intros E. apply M_ext; rewrite ?E; explore; reflexivity.
Qed.

(** ** One probe of [script.py] *)

Lemma script_handler_value (p : str) (e : exn) :
  value (script.test_serial_connection_handler p e)
  = if is_Exception e then inr tt else inl e.
Proof. destruct e; reflexivity. Qed.

Lemma script_handler_wire (p : str) (e : exn) :
  wire (trace (script.test_serial_connection_handler p e)) = [].
Proof. destruct e; reflexivity. Qed.

#[local] Hint Rewrite script_handler_value script_handler_wire : run.

(** The calls of one complete probe of [script.py] on port [p]. *)
Lemma script_wire_prefix (h : host) (p ct : str) :
  (exists e, wire (trace (script.test_serial_connection h p ct))
             = [EOpenFailed p script.serial_parameters e])
  \/ (exists n,
        wire (trace (script.test_serial_connection h p ct))
        = firstn n [EOpen p script.serial_parameters;
                    EWrite p test_command; EReadline p; EClose p]).
Proof.
  explore; cbn [wire filter negb is_console app]; eauto;
    right;
    first [ now exists 1%nat | now exists 2%nat
          | now exists 3%nat | now exists 4%nat ].
Qed.

(** The probe of [script.py] returns nothing, or is ended by an exception
    that is not an [Exception] and that a call on the port raised. *)
Lemma script_value (h : host) (p ct : str) :
  value (script.test_serial_connection h p ct) = inr tt
  \/ exists e,
       value (script.test_serial_connection h p ct) = inl e
       /\ is_Exception e = false
       /\ (on_open (attached h p) = Some e
           \/ on_write (attached h p) test_command = Some e
           \/ on_readline (attached h p) = inl e
           \/ on_close (attached h p) = Some e).
Proof.
  explore; auto;
    match goal with
    | |- context [is_Exception ?e] =>
        destruct (is_Exception e) eqn:?; eauto 10
    end.
Qed.

Lemma script_returns (h : host) (p ct : str) :
  uninterrupted (attached h p) = true ->
  value (script.test_serial_connection h p ct) = inr tt.
Proof.
  intros Hu. apply uninterrupted_elim in Hu.
  destruct Hu as (Ho & _ & _ & Hw & Hr & Hc).
  destruct (script_value h p ct) as [E|(e & _ & He & [H|[H|[H|H]]])];
    [exact E| | | | ].
  - rewrite H in Ho. cbn in Ho. congruence.
  - rewrite H in Hw. cbn in Hw. congruence.
  - apply Hr in H. congruence.
  - rewrite H in Hc. cbn in Hc. congruence.
Qed.

(** On no port does the probe of [script.py] reset a buffer or wait. *)
Lemma script_never_flushes_or_waits (h : host) (p ct : str) (ev : event) :
  In ev (trace (script.test_serial_connection h p ct)) ->
  match ev with
  | EResetInputBuffer _ | EResetOutputBuffer _ | ESleep _ => False
  | _ => True
  end.
Proof.
  intros Hin.
  assert (Hw : is_console ev = false ->
               In ev (wire (trace (script.test_serial_connection h p ct)))).
  { intros Hc. apply filter_In. now rewrite Hc. }
  destruct ev; try exact I; specialize (Hw eq_refl);
    destruct (script_wire_prefix h p ct) as [[e E]|[n E]]; rewrite E in Hw;
    try (destruct Hw as [Hw|[]]; discriminate Hw);
    do 5 (try destruct n as [|n]); cbn in Hw;
    repeat (destruct Hw as [Hw|Hw]; [discriminate Hw|]); exact Hw.
Qed.

Lemma script_sent (h : host) (p ct : str) :
  sent (trace (script.test_serial_connection h p ct))
  = if is_None (on_open (attached h p)) then [test_command] else [].
Proof.
  rewrite <- sent_wire. explore; reflexivity.
Qed.

Lemma script_reads (h : host) (p ct : str) :
  reads (trace (script.test_serial_connection h p ct))
  = if is_None (on_open (attached h p))
       && is_None (on_write (attached h p) test_command)
    then 1%nat else 0%nat.
Proof.
  rewrite <- reads_wire. explore; reflexivity.
Qed.

(** ** The batch run and its summary *)

Lemma attempts_app (t u : list event) :
  attempts (t ++ u) = attempts t ++ attempts u.
Proof. induction t as [|[] t IH]; cbn; congruence. Qed.

Lemma test_each_value (h : host) (port : ListPortInfo)
      (todo : list ListPortInfo) (done : list (str * str)) :
  value (test_each h (port :: todo) done)
  = match value (test_connection h (device port) (description port)) with
    | inl e => inl e
    | inr s => value (test_each h todo (done ++ [(device port, s)]))
    end.
Proof.
  cbn [test_each]. rewrite value_bind.
  destruct (value (test_connection _ _ _)); [reflexivity|].
  now rewrite !value_bind.
Qed.

Lemma test_each_trace (h : host) (port : ListPortInfo)
      (todo : list ListPortInfo) (done : list (str * str)) :
  trace (test_each h (port :: todo) done)
  = trace (test_connection h (device port) (description port))
    ++ match value (test_connection h (device port) (description port)) with
       | inl _ => []
       | inr s => EPrint [] :: ESleep 1000
                  :: trace (test_each h todo (done ++ [(device port, s)]))
       end.
Proof.
  cbn [test_each]. rewrite trace_bind.
  destruct (value (test_connection _ _ _)); [reflexivity|].
  now rewrite !trace_bind.
Qed.

(** With no interrupt, the loop gives one entry per port, in order, each
    being what the probe of that port gives, and opens the ports in order. *)
Lemma test_each_runs (h : host) (todo : list ListPortInfo) :
  (forall port, In port todo ->
                uninterrupted (attached h (device port)) = true) ->
  forall done,
  exists entries,
    value (test_each h todo done) = inr (done ++ entries)
    /\ Forall2 (probed h) todo entries
    /\ attempts (trace (test_each h todo done)) = map device todo.
Proof.
  induction todo as [|port todo IH]; intros Hu done.
  - exists []. cbn. rewrite app_nil_r. auto.
  - destruct (probe_returns h (device port) (description port)) as (s & Hs & _);
      [apply Hu; now left|].
    destruct (IH (fun q Hq => Hu q (or_intror Hq))
                 (done ++ [(device port, s)])) as (entries & Hv & Hf & Ha).
    exists ((device port, s) :: entries).
    rewrite test_each_value, test_each_trace, Hs, Hv, <- app_assoc.
    repeat split; auto.
    + constructor; [split; [reflexivity | exact Hs] | exact Hf].
    + rewrite attempts_app, probe_attempts. cbn [attempts app map].
      now rewrite Ha.
Qed.

Lemma print_summary_runs (results : list (str * str)) :
  value (print_summary results) = inr tt
  /\ trace (print_summary results)
     = map (fun entry => EPrint (summary_line entry)) results.
Proof.
  induction results as [|[port result] results [IHv IHt]]; [split; reflexivity|].
  cbn [print_summary]. rewrite value_bind, trace_bind, IHv, IHt.
  split; reflexivity.
Qed.

Lemma test_all_ports_trace (h : host) (self : MCTCTester)
      (results : list (str * str)) :
  ports self <> [] ->
  value (test_each h (ports self) []) = inr results ->
  trace (test_all_ports h self)
  = EPrint (lit "🧪 Testing all available ports..." ++ nl)
    :: trace (test_each h (ports self) [])
    ++ [EPrint (lit "📊 TEST SUMMARY:"); EPrint (times (lit "─") 40)]
    ++ map (fun entry => EPrint (summary_line entry)) results
    ++ [EInput (nl ++ lit "Press Enter to continue...")].
Proof.
  intros Hp Hv. unfold test_all_ports.
  destruct (ports self) as [|port others] eqn:E; [congruence|].
  cbn [truthy negb]. rewrite <- E in *.
  destruct (print_summary_runs results) as [Sv St].
  repeat first
    [ rewrite trace_bind | rewrite value_bind
    | rewrite Hv | rewrite Sv | rewrite St
    | progress cbn [print input emit value trace fst snd]
    | progress cbv beta iota ].
  reflexivity.
Qed.

Lemma detect_ports_value (h : host) (self : MCTCTester) :
  value (detect_ports h self)
  = match listing h with
    | inl e => inl e
    | inr [] => inr ({| ports := [] |}, false)
    | inr (port :: others) => inr ({| ports := port :: others |}, true)
    end.
Proof.
  unfold detect_ports, comports. rewrite !value_bind.
  cbn [print sleep emit value fst]. cbv beta iota.
  destruct (listing h) as [e|[|port others]]; [reflexivity| |];
    cbn [ports truthy negb]; now rewrite !value_bind.
Qed.

Lemma first_failure_ordinary (ep : endpoint) (e : exn) :
  uninterrupted ep = true -> first_failure ep = Some e ->
  is_Exception e = true.
Proof.
  intros Hu Hf. apply uninterrupted_elim in Hu.
  destruct Hu as (Ho & Hi & Hu & Hw & Hr & _).
  unfold first_failure in Hf.
  destruct (on_open ep); [injection Hf as <-; exact Ho|].
  destruct (on_reset_input_buffer ep); [injection Hf as <-; exact Hi|].
  destruct (on_reset_output_buffer ep); [injection Hf as <-; exact Hu|].
  destruct (on_write ep test_command); [injection Hf as <-; exact Hw|].
  destruct (on_readline ep); [injection Hf as <-; now apply Hr|discriminate].
Qed.

Lemma status_of_success (result : str) :
  status_of result = lit "✅ SUCCESS" <-> result = lit "SUCCESS".
Proof.
  unfold status_of. destruct (str_eqb result (lit "SUCCESS")) eqn:E.
  - apply str_eqb_eq in E. split; auto.
  - split; [differ|]. intros H. apply str_eqb_eq in H. congruence.
Qed.

Lemma status_of_failed (result : str) :
  result <> lit "SUCCESS" -> status_of result = lit "❌ FAILED".
Proof.
  intros H. unfold status_of.
  destruct (str_eqb result (lit "SUCCESS")) eqn:E; [|reflexivity].
  apply str_eqb_eq in E. contradiction.
Qed.

(** The line shown as received is the trimmed text. *)
Lemma probe_shows_trimmed (h : host) (p ct : str) (r : bytes) (t : str) :
  line_received (attached h p) r -> r <> [] ->
  utf8_decode (octets r) = Some t ->
  In (EPrint (lit "📥 Received: " ++ strip t)) (trace (test_connection h p ct)).
Proof.
  intros Hl Hr Hd. port_facts. destruct r as [|b r]; [congruence|].
  run. rewrite !in_app_iff. cbn [In]. auto 20.
Qed.

(** * The claims *)

(** ** Release of the port handle *)

(** C1 (the code breaks it).  The handle is to be closed once per open on
    every branch.  Here a port opens and then raises on [write]; a second
    port answers one octet that is not text; the same failing port is then
    probed by [script.py].  In the three runs one handle is acquired and
    [close] is never called, while the probe returns normally. *)
Theorem close_skipped_after_fault :
  (let run := test_connection (only (write_fails unplugged)) COM1 COM1 in
   value run = inr (lit "SERIAL_ERROR")
   /\ opens (trace run) = 1%nat /\ closes (trace run) = 0%nat)
  /\ (let run := test_connection (only (replying binary_line)) COM1 COM1 in
      value run = inr (lit "UNKNOWN_ERROR")
      /\ opens (trace run) = 1%nat /\ closes (trace run) = 0%nat)
  /\ (let run := script.test_serial_connection
                   (only (write_fails unplugged)) COM1 (lit "SERIAL") in
      value run = inr tt
      /\ opens (trace run) = 1%nat /\ closes (trace run) = 0%nat).
Proof. vm_compute. repeat split. Qed.

(** ** Replies that are not text *)

(** C2, as stated, fails: a port that opens and answers the octet [0xFF],
    which is not UTF-8, does not give ["DECODE_ERROR"]. *)
Lemma binary_reply_is_not_DECODE_ERROR :
  line_received (attached (only (replying binary_line)) COM1) binary_line
  /\ utf8_decode (octets binary_line) = None
  /\ value (test_connection (only (replying binary_line)) COM1 COM1)
     <> inr (lit "DECODE_ERROR").
Proof.
  split; [repeat split|]. split; [reflexivity | differ].
Qed.

(** C2, amended.  When the port opens, is flushed, takes the command and
    answers octets that do not decode as UTF-8, the probe returns the
    catch-all ["UNKNOWN_ERROR"]; this string differs from
    ["EMPTY_RESPONSE"], and ["DECODE_ERROR"] is not among the results. *)
Theorem undecodable_reply_is_UNKNOWN_ERROR (h : host) (p ct : str) (r : bytes) :
  line_received (attached h p) r ->
  utf8_decode (octets r) = None ->
  value (test_connection h p ct) = inr (lit "UNKNOWN_ERROR")
  /\ lit "UNKNOWN_ERROR" <> lit "EMPTY_RESPONSE"
  /\ ~ In (lit "DECODE_ERROR") outcome_strings.
Proof.
  intros Hl Hd. split; [exact (proj1 (probe_undecodable h p ct r Hl Hd))|].
  split; [differ|]. cbn [In outcome_strings].
  intros [H|[H|[H|[H|[H|[]]]]]]; vm_compute in H; discriminate H.
Qed.

Lemma undecodable_reply_is_UNKNOWN_ERROR_witness :
  line_received (attached (only (replying binary_line)) COM1) binary_line
  /\ utf8_decode (octets binary_line) = None
  /\ value (test_connection (only (replying binary_line)) COM1 COM1)
     = inr (lit "UNKNOWN_ERROR").
Proof.
  assert (Hl : line_received (attached (only (replying binary_line)) COM1)
                             binary_line) by (repeat split).
  assert (Hd : utf8_decode (octets binary_line) = None) by reflexivity.
  split; [exact Hl|]. split; [exact Hd|].
  exact (proj1 (undecodable_reply_is_UNKNOWN_ERROR
                  (only (replying binary_line)) COM1 COM1 binary_line Hl Hd)).
Defined.

(** ** Failures of the transport *)

(** C3, as stated, fails: a port that cannot be opened gives
    ["SERIAL_ERROR"], not ["PORT_ERROR"]. *)
Lemma open_failure_is_not_PORT_ERROR :
  on_open (attached (only (unopenable busy)) COM1) = Some busy
  /\ value (test_connection (only (unopenable busy)) COM1 COM1)
     = inr (lit "SERIAL_ERROR")
  /\ value (test_connection (only (unopenable busy)) COM1 COM1)
     <> inr (lit "PORT_ERROR").
Proof.
  split; [reflexivity|]. split; [reflexivity | differ].
Qed.

(** C3, amended.  When no call on the port raises outside the [Exception]
    hierarchy, [test_connection] returns a string, and the first call among
    open, flush, write and read that raises decides it: ["SERIAL_ERROR"]
    for a [SerialException], ["UNKNOWN_ERROR"] for any other exception.
    The probe of [script.py] returns as well (it has no result). *)
Theorem failures_become_results (h : host) (p ct : str) :
  uninterrupted (attached h p) = true ->
  (exists s, value (test_connection h p ct) = inr s)
  /\ (forall e, first_failure (attached h p) = Some e ->
        value (test_connection h p ct)
        = inr (if is_SerialException e then lit "SERIAL_ERROR"
               else lit "UNKNOWN_ERROR"))
  /\ value (script.test_serial_connection h p ct) = inr tt.
Proof.
  intros Hu. split; [|split].
  - destruct (probe_returns h p ct Hu) as (s & Hs & _). eauto.
  - intros e Hf. rewrite (probe_failure h p ct e Hf).
    apply handled_ordinary. eapply first_failure_ordinary; eassumption.
  - apply script_returns, Hu.
Qed.

Lemma failures_become_results_witness :
  uninterrupted (attached (only (read_fails unplugged)) COM1) = true
  /\ value (test_connection (only (read_fails unplugged)) COM1 COM1)
     = inr (lit "SERIAL_ERROR")
  /\ value (script.test_serial_connection
              (only (read_fails unplugged)) COM1 COM1) = inr tt.
Proof.
  assert (Hu : uninterrupted (attached (only (read_fails unplugged)) COM1)
               = true) by reflexivity.
  destruct (failures_become_results (only (read_fails unplugged)) COM1 COM1 Hu)
    as (_ & Hf & Hs).
  split; [exact Hu|]. split; [|exact Hs].
  exact (Hf unplugged eq_refl).
Defined.

(** ** Classification of the line read *)

Ltac absurd_literals :=
  match goal with
  | H : lit _ = lit _ |- _ => vm_compute in H; discriminate H
  end.

Lemma classified_inv (r : bytes) (s : str) :
  classified r s ->
  (r = [] /\ s = lit "NO_RESPONSE")
  \/ (r <> [] /\ s = lit "EMPTY_RESPONSE"
      /\ exists t, utf8_decode (octets r) = Some t /\ strip t = [])
  \/ (r <> [] /\ s = lit "SUCCESS"
      /\ exists t, utf8_decode (octets r) = Some t /\ strip t <> []).
Proof.
  destruct 1 as [|r t Hr Hd Ht|r t Hd Ht]; eauto 10.
  right; right. repeat split; eauto.
  intros ->. cbv in Hd. injection Hd as <-. apply Ht. reflexivity.
Qed.



(** ** The batch run *)

Lemma Forall2_nth_error_l {A B : Type} (R : A -> B -> Prop)
      (l : list A) (l' : list B) :
  Forall2 R l l' ->
  forall i a, nth_error l i = Some a ->
              exists b, nth_error l' i = Some b /\ R a b.
Proof.
  induction 1 as [|a b l l' Hab _ IH]; intros [|i] x Hx; cbn in *;
    try discriminate.
  - injection Hx as <-. eauto.
  - eauto.
Qed.

Lemma probed_devices (h : host) (todo : list ListPortInfo)
      (entries : list (str * str)) :
  Forall2 (probed h) todo entries -> map fst entries = map device todo.
Proof.
  induction 1 as [|port entry todo entries [Hd _] _ IH]; cbn; congruence.
Qed.

(** C5, as stated, fails: with three ports of which the second cannot be
    opened, the second result is ["SERIAL_ERROR"], not ["PORT_ERROR"]. *)
Lemma batch_open_failure_is_not_PORT_ERROR :
  value (test_each bench bench_ports [])
  = inr [(COM1, lit "SUCCESS"); (COM2, lit "SERIAL_ERROR");
         (COM3, lit "SUCCESS")]
  /\ on_open (attached bench COM2) = Some busy
  /\ lit "SERIAL_ERROR" <> lit "PORT_ERROR".
Proof.
  split; [vm_compute; reflexivity|]. split; [reflexivity | differ].
Qed.

(** C5, amended.  When no call on a listed port raises outside the
    [Exception] hierarchy, the loop of [test_all_ports] opens the ports once
    each in the order of the list, whatever the earlier probes gave, and
    collects one entry per port in that order.  Each entry carries the
    device of its port and the result the probe of that port gives, on this
    machine or on any machine where that port answers the same; for a port
    that cannot be opened the result is ["SERIAL_ERROR"] (or
    ["UNKNOWN_ERROR"] when the exception is not a [SerialException]). *)
Theorem batch_in_input_order (h : host) (todo : list ListPortInfo) :
  (forall port, In port todo ->
                uninterrupted (attached h (device port)) = true) ->
  exists results,
    value (test_each h todo []) = inr results
    /\ List.length results = List.length todo
    /\ map fst results = map device todo
    /\ attempts (trace (test_each h todo [])) = map device todo
    /\ (forall i port h',
          nth_error todo i = Some port ->
          attached h' (device port) = attached h (device port) ->
          exists s,
            nth_error results i = Some (device port, s)
            /\ value (test_connection h' (device port) (description port))
               = inr s)
    /\ (forall i port e,
          nth_error todo i = Some port ->
          on_open (attached h (device port)) = Some e ->
          nth_error results i
          = Some (device port,
                  if is_SerialException e then lit "SERIAL_ERROR"
                  else lit "UNKNOWN_ERROR")).
Proof.
  intros Hu. destruct (test_each_runs h todo Hu []) as (results & Hv & Hf & Ha).
  exists results. cbn [app] in Hv.
  assert (Hnth : forall i port,
             nth_error todo i = Some port ->
             exists s, nth_error results i = Some (device port, s)
                       /\ value (test_connection h (device port)
                                                 (description port)) = inr s).
  { intros i port Hi.
    destruct (Forall2_nth_error_l _ _ _ Hf i port Hi) as ([d s] & Hr & Hd & Hs).
    cbn in Hd, Hs. subst d. eauto. }
  repeat split; auto.
  - symmetry. eapply Forall2_length, Hf.
  - exact (probed_devices h _ _ Hf).
  - intros i port h' Hi Hh. destruct (Hnth i port Hi) as (s & Hr & Hs).
    exists s. split; [exact Hr|].
    rewrite (probe_local h' h _ _ Hh). exact Hs.
  - intros i port e Hi Ho. destruct (Hnth i port Hi) as (s & Hr & Hs).
    rewrite Hr. do 2 f_equal.
    assert (Hf' : first_failure (attached h (device port)) = Some e)
      by (unfold first_failure; now rewrite Ho).
    rewrite (probe_failure h _ _ e Hf') in Hs.
    rewrite handled_ordinary in Hs.
    + now injection Hs as <-.
    + eapply first_failure_ordinary; [|exact Hf'].
      apply Hu. eapply nth_error_In, Hi.
Qed.

Lemma batch_in_input_order_witness :
  (forall port, In port bench_ports ->
                uninterrupted (attached bench (device port)) = true)
  /\ exists results,
       value (test_each bench bench_ports []) = inr results
       /\ map fst results = [COM1; COM2; COM3]
       /\ nth_error results 1 = Some (COM2, lit "SERIAL_ERROR").
Proof.
  assert (Hu : forall port, In port bench_ports ->
                 uninterrupted (attached bench (device port)) = true).
  { intros port [<-|[<-|[<-|[]]]]; reflexivity. }
  split; [exact Hu|].
  destruct (batch_in_input_order bench bench_ports Hu)
    as (results & Hv & _ & Hd & _ & _ & Hopen).
  exists results. split; [exact Hv|]. split; [exact Hd|].
  exact (Hopen 1%nat {| device := COM2; description := lit "Bluetooth" |}
               busy eq_refl eq_refl).
Defined.

(** ** Enumeration *)

(** C6, as stated, fails: when the listing call raises, [detect_ports]
    reports no outcome at all; the exception leaves the method. *)
Lemma listing_failure_propagates :
  listing broken_listing
  = inl (OtherException (lit "OSError") (lit "listing failed"))
  /\ value (detect_ports broken_listing init)
     = inl (OtherException (lit "OSError") (lit "listing failed"))
  /\ ~ exists outcome, value (detect_ports broken_listing init) = inr outcome.
Proof.
  split; [reflexivity|]. split; [reflexivity|].
  intros [outcome H]. vm_compute in H. discriminate H.
Qed.

(** C6, amended.  [detect_ports] returns normally with [False] and an empty
    port list when the listing is empty, and with [True] and the listed
    ports otherwise; when the listing call raises, the exception leaves
    [detect_ports] unchanged, so that a failed listing is never reported as
    an empty one.  No enumeration error outcome exists. *)
Theorem detect_ports_outcomes (h : host) (self : MCTCTester) :
  (listing h = inr [] ->
   value (detect_ports h self) = inr ({| ports := [] |}, false))
  /\ (forall found, listing h = inr found -> found <> [] ->
        value (detect_ports h self) = inr ({| ports := found |}, true))
  /\ (forall e, listing h = inl e -> value (detect_ports h self) = inl e).
Proof.
  rewrite detect_ports_value. repeat split.
  - now intros ->.
  - intros [|port others] -> Hne; [congruence | reflexivity].
  - now intros e ->.
Qed.

Lemma detect_ports_outcomes_witness :
  listing bare = inr []
  /\ value (detect_ports bare init) = inr ({| ports := [] |}, false).
Proof.
  split; [reflexivity|].
  exact (proj1 (detect_ports_outcomes bare init) eq_refl).
Defined.

(** ** Order of the calls of a probe *)

(** C7 (the code breaks it).  The buffers are to be flushed before the
    command is written and the probe is to wait 0.5 s before it reads.  On
    a port where every call returns, [test_connection] of [MCTC_TESTER.py]
    does so, and [test_serial_connection] of [script.py] writes straight
    after the open and reads straight after the write. *)
Theorem script_probe_skips_flush_and_wait :
  wire (trace (script.test_serial_connection
                 (only (replying id_line)) COM1 (lit "SERIAL")))
  = [EOpen COM1 script.serial_parameters; EWrite COM1 script.test_command;
     EReadline COM1; EClose COM1]
  /\ wire (trace (test_connection (only (replying id_line)) COM1 (lit "SERIAL")))
     = [EOpen COM1 serial_parameters; EResetInputBuffer COM1;
        EResetOutputBuffer COM1; EWrite COM1 test_command; ESleep 500;
        EReadline COM1; EClose COM1].
Proof. vm_compute. split; reflexivity. Qed.

(** ** The exchange on the wire *)

Lemma reads_at_most_one (b : bool) : ((if b then 1 else 0) <= 1)%nat.
Proof. destruct b; lia. Qed.

(** C8.  The command is the seven octets 2A 49 44 4E 3F 0D 0A in both
    programs, and it is the only thing a probe ever writes: once, when the
    port is ready, and not at all otherwise.  [readline] is called at most
    once per probe.  When a line of octets is read and decodes to [t], one
    read was made, the text shown and classified is [strip t], which is [t]
    without a run of white space at each end and does not end in white
    space, and the result is ["SUCCESS"] or ["EMPTY_RESPONSE"] according to
    whether [strip t] is empty. *)
Theorem stimulus_and_trimmed_line (h : host) (p ct : str) :
  test_command = [x2a; x49; x44; x4e; x3f; x0d; x0a]
  /\ script.test_command = test_command
  /\ sent (trace (test_connection h p ct))
     = (if ready_to_send (attached h p) then [test_command] else [])
  /\ sent (trace (script.test_serial_connection h p ct))
     = (if is_None (on_open (attached h p)) then [test_command] else [])
  /\ (reads (trace (test_connection h p ct)) <= 1)%nat
  /\ (reads (trace (script.test_serial_connection h p ct)) <= 1)%nat
  /\ (forall r t,
        line_received (attached h p) r -> r <> [] ->
        utf8_decode (octets r) = Some t ->
        reads (trace (test_connection h p ct)) = 1%nat
        /\ In (EPrint (lit "📥 Received: " ++ strip t))
              (trace (test_connection h p ct))
        /\ (exists a b, t = a ++ strip t ++ b
                        /\ forallb isspace a = true
                        /\ forallb isspace b = true)
        /\ (forall s c, strip t = s ++ [c] -> isspace c = false)
        /\ (on_close (attached h p) = None ->
            value (test_connection h p ct)
            = inr (if truthy (strip t) then lit "SUCCESS"
                   else lit "EMPTY_RESPONSE"))).
Proof.
  split; [reflexivity|]. split; [reflexivity|].
  split; [apply probe_sent|]. split; [apply script_sent|].
  split; [rewrite probe_reads; apply reads_at_most_one|].
  split; [rewrite script_reads; apply reads_at_most_one|].
  intros r t Hl Hr Hd. split; [|split; [|split; [|split]]].
  - rewrite probe_reads. destruct Hl as (Ho & Hi & Hu & Hw & _).
    unfold ready_to_send. now rewrite Ho, Hi, Hu, Hw.
  - now apply probe_shows_trimmed with (r := r).
  - apply strip_split.
  - intros s c. apply strip_last.
  - intros Hc.
    destruct (probe_classified h p ct r Hl Hc) as (s & Hs & -> & _);
      [congruence|].
    f_equal. eapply classified_functional; [exact Hs|].
    destruct (strip t) as [|c s'] eqn:Ht; cbn [truthy].
    + eapply classified_empty; eauto.
    + eapply classified_text; eauto. congruence.
Qed.

Lemma stimulus_and_trimmed_line_witness :
  line_received (attached (only (replying id_line)) COM1) id_line
  /\ id_line <> []
  /\ utf8_decode (octets id_line) = Some (lit "MCTC-100" ++ [13; 10])
  /\ strip (lit "MCTC-100" ++ [13; 10]) = lit "MCTC-100"
  /\ value (test_connection (only (replying id_line)) COM1 COM1)
     = inr (lit "SUCCESS").
Proof.
  assert (Hl : line_received (attached (only (replying id_line)) COM1) id_line)
    by (repeat split).
  assert (Hr : id_line <> []) by discriminate.
  assert (Hd : utf8_decode (octets id_line) = Some (lit "MCTC-100" ++ [13; 10]))
    by reflexivity.
  split; [exact Hl|]. split; [exact Hr|]. split; [exact Hd|].
  split; [reflexivity|].
  destruct (stimulus_and_trimmed_line (only (replying id_line)) COM1 COM1)
    as (_ & _ & _ & _ & _ & _ & H).
  destruct (H id_line _ Hl Hr Hd) as (_ & _ & _ & _ & Hv).
  exact (Hv eq_refl).
Defined.

(** ** The closed set of results *)

(** C9.  Whatever the port does, [test_connection] returns one of
    ["SUCCESS"], ["EMPTY_RESPONSE"], ["NO_RESPONSE"], ["SERIAL_ERROR"] and
    ["UNKNOWN_ERROR"], unless it is ended by an exception outside the
    [Exception] hierarchy, in which case it returns nothing.  The five
    strings are distinct, each is returned on some port, and neither
    ["DECODE_ERROR"] nor ["PORT_ERROR"] is among them. *)
Theorem outcomes_are_the_five_strings (h : host) (p ct : str) :
  match value (test_connection h p ct) with
  | inr s => In s outcome_strings
  | inl e => is_Exception e = false
  end
  /\ outcome_strings
     = [lit "SUCCESS"; lit "EMPTY_RESPONSE"; lit "NO_RESPONSE";
        lit "SERIAL_ERROR"; lit "UNKNOWN_ERROR"]
  /\ NoDup outcome_strings
  /\ ~ In (lit "DECODE_ERROR") outcome_strings
  /\ ~ In (lit "PORT_ERROR") outcome_strings
  /\ Forall (fun s => exists ep,
                 value (test_connection (only ep) COM1 COM1) = inr s)
            outcome_strings.
Proof.
  split; [apply probe_outcome_or_interrupt|]. split; [reflexivity|].
  split; [|split; [|split]].
  - vm_compute.
    repeat (constructor;
            [cbn; intros H;
             repeat (destruct H as [H|H]; [discriminate H|]); exact H|]).
    constructor.
  - cbn [In outcome_strings].
    intros [H|[H|[H|[H|[H|[]]]]]]; vm_compute in H; discriminate H.
  - cbn [In outcome_strings].
    intros [H|[H|[H|[H|[H|[]]]]]]; vm_compute in H; discriminate H.
  - unfold outcome_strings. repeat constructor.
    + exists (replying id_line). reflexivity.
    + exists (replying blank_line). reflexivity.
    + exists (replying []). reflexivity.
    + exists (unopenable busy). reflexivity.
    + exists (unopenable bad_argument). reflexivity.
Qed.

(** ** The summary *)

(** C10.  The status shown for a port is the success mark exactly when its
    result is ["SUCCESS"]; any other result, ["EMPTY_RESPONSE"] included, is
    shown as failed.  The lines of the summary are computed from the
    collected (device, result) pairs alone, one line per pair in order, and
    these are the lines [test_all_ports] prints after the probes. *)
Theorem summary_marks_only_SUCCESS (h : host) (self : MCTCTester) :
  (forall result, status_of result = lit "✅ SUCCESS" <-> result = lit "SUCCESS")
  /\ (forall result, result <> lit "SUCCESS" ->
                     status_of result = lit "❌ FAILED")
  /\ Forall (fun result => status_of result = lit "❌ FAILED")
            [lit "EMPTY_RESPONSE"; lit "NO_RESPONSE";
             lit "SERIAL_ERROR"; lit "UNKNOWN_ERROR"]
  /\ (forall results,
        trace (print_summary results)
        = map (fun entry => EPrint (summary_line entry)) results)
  /\ (forall results,
        ports self <> [] ->
        value (test_each h (ports self) []) = inr results ->
        trace (test_all_ports h self)
        = EPrint (lit "🧪 Testing all available ports..." ++ nl)
          :: trace (test_each h (ports self) [])
          ++ [EPrint (lit "📊 TEST SUMMARY:"); EPrint (times (lit "─") 40)]
          ++ map (fun entry => EPrint (summary_line entry)) results
          ++ [EInput (nl ++ lit "Press Enter to continue...")]).
Proof.
  split; [apply status_of_success|]. split; [apply status_of_failed|].
  split; [repeat constructor|].
  split; [intros results; apply print_summary_runs|].
  intros results. apply test_all_ports_trace.
Qed.

Lemma summary_marks_only_SUCCESS_witness :
  ports {| ports := bench_ports |} <> []
  /\ value (test_each bench bench_ports [])
     = inr [(COM1, lit "SUCCESS"); (COM2, lit "SERIAL_ERROR");
            (COM3, lit "SUCCESS")]
  /\ printed (trace (print_summary [(COM1, lit "SUCCESS");
                                    (COM2, lit "SERIAL_ERROR");
                                    (COM3, lit "SUCCESS")]))
     = [lit "COM1            : ✅ SUCCESS";
        lit "COM2            : ❌ FAILED";
        lit "COM3            : ✅ SUCCESS"]
  /\ exists before,
       trace (test_all_ports bench {| ports := bench_ports |})
       = before
         ++ map (fun entry => EPrint (summary_line entry))
                [(COM1, lit "SUCCESS"); (COM2, lit "SERIAL_ERROR");
                 (COM3, lit "SUCCESS")]
         ++ [EInput (nl ++ lit "Press Enter to continue...")].
Proof.
  assert (Hp : ports {| ports := bench_ports |} <> []) by discriminate.
  assert (Hv : value (test_each bench bench_ports [])
               = inr [(COM1, lit "SUCCESS"); (COM2, lit "SERIAL_ERROR");
                      (COM3, lit "SUCCESS")]) by (vm_compute; reflexivity).
  split; [exact Hp|]. split; [exact Hv|]. split; [vm_compute; reflexivity|].
  destruct (summary_marks_only_SUCCESS bench {| ports := bench_ports |})
    as (_ & _ & _ & _ & H).
  eexists. rewrite (H _ Hp Hv).
  rewrite app_comm_cons, app_assoc. reflexivity.
Defined.

(** * Further properties *)

(** ** The probe of [MCTC_TESTER.py], continued *)

(** A port has one run: value and calls are decided by the port. *)
Lemma probe_run_functional (ep : endpoint) (p : str)
      (v v' : exn + str) (w w' : list event) :
  probe_run ep p v w -> probe_run ep p v' w' -> v = v' /\ w = w'.
Proof.
  intros R R'.
  destruct R; destruct R'; port_facts;
    try congruence;
    try (assert (e = e0) by congruence; subst; split; reflexivity);
    try (assert (r = r0) by congruence; subst);
    try (exfalso; eapply classified_decodes; eassumption);
    try (split; reflexivity);
    try (assert (s = s0) by (eapply classified_functional; eassumption); subst);
    try (split; reflexivity).
Qed.

Lemma strip_visible (t : str) : strip t <> [] <-> visible t = true.
Proof.
  unfold visible. rewrite strip_nil_iff. split.
  - intros H. destruct (existsb _ t) eqn:E; [reflexivity|].
    exfalso. apply H. apply forallb_forall. intros c Hc.
    destruct (isspace c) eqn:Es; [reflexivity|].
    assert (existsb (fun c => negb (isspace c)) t = true)
      by (apply existsb_exists; exists c; now rewrite Es).
    congruence.
  - intros H Hall. apply existsb_exists in H. destruct H as (c & Hc & Hn).
    rewrite forallb_forall in Hall. rewrite (Hall c Hc) in Hn. discriminate.
Qed.

(** The result is ["SUCCESS"] exactly when the decoded line has a code point
    that is not white space: nothing else of its content is looked at. *)
Theorem success_iff_visible_text (h : host) (p ct : str) (r : bytes) (t : str) :
  line_received (attached h p) r ->
  on_close (attached h p) = None ->
  utf8_decode (octets r) = Some t ->
  (value (test_connection h p ct) = inr (lit "SUCCESS") <-> visible t = true).
Proof.
  intros Hl Hc Hd. rewrite <- strip_visible.
  destruct (probe_classified h p ct r Hl Hc) as (s & Hs & -> & _);
    [congruence|].
  pose proof (classified_inv r s Hs) as Hi. rewrite Hd in Hi. split.
  - intros [= ->].
    destruct Hi as [[_ ?]|[(_ & ? & _)|(_ & _ & t' & [= <-] & Ht)]];
      [absurd_literals | absurd_literals | exact Ht].
  - intros Ht. f_equal. eapply classified_functional; [exact Hs|].
    eapply classified_text; eauto.
Qed.

Lemma success_iff_visible_text_witness :
  line_received (attached (only (replying id_line)) COM1) id_line
  /\ on_close (attached (only (replying id_line)) COM1) = None
  /\ utf8_decode (octets id_line) = Some (lit "MCTC-100" ++ [13; 10])
  /\ value (test_connection (only (replying id_line)) COM1 COM1)
     = inr (lit "SUCCESS").
Proof.
  assert (Hl : line_received (attached (only (replying id_line)) COM1) id_line)
    by (repeat split).
  assert (Hc : on_close (attached (only (replying id_line)) COM1) = None)
    by reflexivity.
  assert (Hd : utf8_decode (octets id_line) = Some (lit "MCTC-100" ++ [13; 10]))
    by reflexivity.
  split; [exact Hl|]. split; [exact Hc|]. split; [exact Hd|].
  apply (proj2 (success_iff_visible_text
                  (only (replying id_line)) COM1 COM1 id_line _ Hl Hc Hd)).
  reflexivity.
Defined.

(** [close] is inside the [try] block: when it raises after a line was read
    and classified, the classification is lost and the result is that of
    the [except] clause. *)
Theorem close_failure_replaces_result (h : host) (p ct : str) (r : bytes)
        (e : exn) :
  line_received (attached h p) r ->
  utf8_decode (octets r) <> None ->
  on_close (attached h p) = Some e ->
  is_Exception e = true ->
  value (test_connection h p ct)
  = inr (if is_SerialException e then lit "SERIAL_ERROR"
         else lit "UNKNOWN_ERROR")
  /\ closes (trace (test_connection h p ct)) = 1%nat.
Proof.
  intros Hl Hd Hc He. rewrite <- closes_wire. port_facts.
  runs_of h p ct; try congruence; try same_line r;
    try (exfalso; congruence).
  assert (e0 = e) by congruence. subst e0.
  split; [now apply handled_ordinary | reflexivity].
Qed.

Lemma close_failure_replaces_result_witness :
  line_received (attached (only (close_fails id_line unplugged)) COM1) id_line
  /\ value (test_connection (only (close_fails id_line unplugged)) COM1 COM1)
     = inr (lit "SERIAL_ERROR").
Proof.
  assert (Hl : line_received
                 (attached (only (close_fails id_line unplugged)) COM1) id_line)
    by (repeat split).
  split; [exact Hl|].
  refine (proj1 (close_failure_replaces_result
                   (only (close_fails id_line unplugged)) COM1 COM1 id_line
                   unplugged Hl _ eq_refl eq_refl)).
  discriminate.
Defined.

(** The label passed as [connection_type] is only printed: it changes
    neither the result nor the calls made on the port. *)
Theorem label_is_display_only (h : host) (p ct ct' : str) :
  value (test_connection h p ct) = value (test_connection h p ct')
  /\ wire (trace (test_connection h p ct))
     = wire (trace (test_connection h p ct')).
Proof.
  eapply probe_run_functional; apply probe_run_complete.
Qed.

(** At most one handle is acquired, [close] is called at most once and
    never without a handle, in both programs. *)
Theorem handle_never_closed_twice (h : host) (p ct : str) :
  (closes (trace (test_connection h p ct))
   <= opens (trace (test_connection h p ct)) <= 1)%nat
  /\ (closes (trace (script.test_serial_connection h p ct))
      <= opens (trace (script.test_serial_connection h p ct)) <= 1)%nat.
Proof.
  split.
  - rewrite <- closes_wire, <- opens_wire. runs_of h p ct; cbn; lia.
  - rewrite <- closes_wire, <- opens_wire.
    destruct (script_wire_prefix h p ct) as [[e ->]|[n ->]]; [cbn; lia|].
    do 5 (try destruct n as [|n]); cbn; lia.
Qed.

(** A result other than the two error strings is only returned after the
    whole cycle, [close] included. *)
Theorem plain_result_means_closed (h : host) (p ct s : str) :
  value (test_connection h p ct) = inr s ->
  s <> lit "SERIAL_ERROR" -> s <> lit "UNKNOWN_ERROR" ->
  wire (trace (test_connection h p ct)) = full_cycle p
  /\ closes (trace (test_connection h p ct)) = 1%nat.
Proof.
  intros Hv Hs Hu. rewrite <- closes_wire. revert Hv.
  assert (Hh : forall e, handled e = inr s -> False).
  { intros e. unfold handled, error_string.
    destruct (is_Exception e); [|discriminate].
    destruct (is_SerialException e); intros [= <-]; auto. }
  runs_of h p ct; intros Hv;
    try (exfalso; eapply Hh; eassumption); split; reflexivity.
Qed.

Lemma plain_result_means_closed_witness :
  value (test_connection (only (replying [])) COM1 COM1)
  = inr (lit "NO_RESPONSE")
  /\ closes (trace (test_connection (only (replying [])) COM1 COM1)) = 1%nat.
Proof.
  split; [reflexivity|].
  refine (proj2 (plain_result_means_closed (only (replying [])) COM1 COM1
                   (lit "NO_RESPONSE") eq_refl _ _));
    intro H; vm_compute in H; discriminate H.
Defined.

(** ** The batch run, continued *)

Lemma slept_app (t u : list event) : slept (t ++ u) = slept t + slept u.
Proof. induction t as [|[] t IH]; cbn [app slept]; lia. Qed.

Lemma slept_wire (t : list event) : slept (wire t) = slept t.
Proof. unfold wire. induction t as [|[] t IH]; cbn; congruence. Qed.

(** A probe waits its half second when, and only when, the command was
    written. *)
Lemma probe_slept (h : host) (p ct : str) :
  slept (trace (test_connection h p ct))
  = if ready_to_send (attached h p)
       && is_None (on_write (attached h p) test_command)
    then 500 else 0.
Proof.
  rewrite <- slept_wire. unfold ready_to_send.
  runs_of h p ct; port_known_goal; reflexivity.
Qed.

Lemma test_each_slept (h : host) (todo : list ListPortInfo) :
  (forall port, In port todo ->
                uninterrupted (attached h (device port)) = true) ->
  forall done,
    1000 * N.of_nat (List.length todo)
    <= slept (trace (test_each h todo done))
    <= 1500 * N.of_nat (List.length todo).
Proof.
  induction todo as [|port todo IH]; intros Hu done; [cbn; lia|].
  destruct (probe_returns h (device port) (description port)) as (s & Hs & _);
    [apply Hu; now left|].
  rewrite test_each_trace, Hs, slept_app, probe_slept.
  cbn [slept].
  specialize (IH (fun q Hq => Hu q (or_intror Hq))
                 (done ++ [(device port, s)])).
  cbn [List.length]. rewrite Nat2N.inj_succ.
  destruct (ready_to_send _ && is_None _); lia.
Qed.

(** Without an interrupt, [test_all_ports] spends between 1 s and 1.5 s in
    [time.sleep] per listed port: one second after each probe, and the half
    second of each probe that got to write its command. *)
Theorem batch_waiting_time (h : host) (self : MCTCTester) :
  (forall port, In port (ports self) ->
                uninterrupted (attached h (device port)) = true) ->
  1000 * len (ports self)
  <= slept (trace (test_all_ports h self))
  <= 1500 * len (ports self).
Proof.
  intros Hu. unfold len.
  assert (Hc : ports self = [] \/ ports self <> [])
    by (destruct (ports self); [left | right]; congruence).
  destruct Hc as [E|Hne].
  - unfold test_all_ports. rewrite E. cbn. lia.
  - destruct (test_each_runs h (ports self) Hu []) as (results & Hv & _ & _).
    cbn [app] in Hv.
    rewrite (test_all_ports_trace h self results Hne Hv).
    pose proof (test_each_slept h (ports self) Hu []) as Hs.
    cbn [slept]. rewrite !slept_app. cbn [slept].
    assert (Hm : slept (map (fun entry => EPrint (summary_line entry)) results)
                 = 0).
    { clear. induction results; cbn; auto. }
    rewrite Hm. lia.
Qed.

Lemma batch_waiting_time_witness :
  (forall port, In port (ports {| ports := bench_ports |}) ->
                uninterrupted (attached bench (device port)) = true)
  /\ 3000 <= slept (trace (test_all_ports bench {| ports := bench_ports |}))
     <= 4500.
Proof.
  assert (Hu : forall port, In port (ports {| ports := bench_ports |}) ->
                 uninterrupted (attached bench (device port)) = true).
  { intros port [<-|[<-|[<-|[]]]]; reflexivity. }
  split; [exact Hu|].
  exact (batch_waiting_time bench {| ports := bench_ports |} Hu).
Defined.

Lemma test_each_aborts (h : host) (before : list ListPortInfo)
      (port : ListPortInfo) (after : list ListPortInfo) (e : exn) :
  (forall q, In q before -> uninterrupted (attached h (device q)) = true) ->
  value (test_connection h (device port) (description port)) = inl e ->
  forall done,
    value (test_each h (before ++ port :: after) done) = inl e
    /\ attempts (trace (test_each h (before ++ port :: after) done))
       = map device (before ++ [port]).
Proof.
  intros Hu He. induction before as [|q before IH]; intros done; cbn [app].
  - rewrite test_each_value, test_each_trace, He, app_nil_r, probe_attempts.
    split; reflexivity.
  - destruct (probe_returns h (device q) (description q)) as (s & Hs & _);
      [apply Hu; now left|].
    destruct (IH (fun x Hx => Hu x (or_intror Hx)) (done ++ [(device q, s)]))
      as [Hv Ha].
    rewrite test_each_value, test_each_trace, Hs, attempts_app, probe_attempts.
    cbn [attempts app map]. rewrite Hv, Ha. split; reflexivity.
Qed.

(** An exception that [test_connection] lets through (a user interrupt
    during a call on a port) ends [test_all_ports] on the spot: the ports
    after it are not opened, no summary is printed and the closing prompt is
    not shown; the exception leaves [test_all_ports]. *)
Theorem interrupt_aborts_batch (h : host) (self : MCTCTester)
        (before : list ListPortInfo) (port : ListPortInfo)
        (after : list ListPortInfo) (e : exn) :
  ports self = before ++ port :: after ->
  (forall q, In q before -> uninterrupted (attached h (device q)) = true) ->
  value (test_connection h (device port) (description port)) = inl e ->
  value (test_all_ports h self) = inl e
  /\ attempts (trace (test_all_ports h self)) = map device (before ++ [port])
  /\ trace (test_all_ports h self)
     = EPrint (lit "🧪 Testing all available ports..." ++ nl)
       :: trace (test_each h (ports self) []).
Proof.
  intros Hp Hu He.
  destruct (test_each_aborts h before port after e Hu He []) as [Hv Ha].
  rewrite <- Hp in Hv, Ha.
  assert (Ht : trace (test_all_ports h self)
               = EPrint (lit "🧪 Testing all available ports..." ++ nl)
                 :: trace (test_each h (ports self) [])).
  { unfold test_all_ports.
    destruct (ports self) as [|x l] eqn:E; [now destruct before|].
    cbn [truthy negb]. rewrite <- E in *.
    repeat first
      [ rewrite trace_bind | rewrite value_bind | rewrite Hv
      | progress cbn [print input emit value trace fst snd app]
      | progress cbv beta iota ].
    now rewrite app_nil_r. }
  split; [|split].
  - unfold test_all_ports.
    destruct (ports self) as [|x l] eqn:E; [now destruct before|].
    cbn [truthy negb]. rewrite <- E in *.
    repeat first
      [ rewrite value_bind | rewrite Hv
      | progress cbn [print input emit value trace fst snd]
      | progress cbv beta iota ].
    reflexivity.
  - rewrite Ht. cbn [attempts]. exact Ha.
  - exact Ht.
Qed.

Lemma interrupt_aborts_batch_witness :
  value (test_connection interrupted_bench COM2 (lit "Bluetooth"))
  = inl KeyboardInterrupt
  /\ value (test_all_ports interrupted_bench {| ports := bench_ports |})
     = inl KeyboardInterrupt
  /\ attempts (trace (test_all_ports interrupted_bench
                                     {| ports := bench_ports |}))
     = [COM1; COM2].
Proof.
  assert (He : value (test_connection interrupted_bench COM2 (lit "Bluetooth"))
               = inl KeyboardInterrupt) by reflexivity.
  assert (Hu : forall q,
             In q [ {| device := COM1; description := lit "USB Serial" |} ] ->
             uninterrupted (attached interrupted_bench (device q)) = true).
  { intros q [<-|[]]. reflexivity. }
  destruct (interrupt_aborts_batch
              interrupted_bench {| ports := bench_ports |}
              [ {| device := COM1; description := lit "USB Serial" |} ]
              {| device := COM2; description := lit "Bluetooth" |}
              [ {| device := COM3; description := lit "USB Serial" |} ]
              KeyboardInterrupt eq_refl Hu He) as (Hv & Ha & _).
  split; [exact He|]. split; [exact Hv | exact Ha].
Defined.

Lemma test_all_ports_value (h : host) (self : MCTCTester) :
  (forall port, In port (ports self) ->
                uninterrupted (attached h (device port)) = true) ->
  value (test_all_ports h self) = inr tt.
Proof.
  intros Hu. unfold test_all_ports.
  destruct (truthy (ports self)); cbn [negb]; [|reflexivity].
  destruct (test_each_runs h (ports self) Hu []) as (results & Hv & _ & _).
  destruct (print_summary_runs (nil ++ results)) as [Sv _].
  repeat first
    [ rewrite value_bind | rewrite Hv | rewrite Sv
    | progress cbn [print input emit value trace fst snd]
    | progress cbv beta iota ].
  reflexivity.
Qed.

Lemma test_all_ports_attempts (h : host) (self : MCTCTester) :
  (forall port, In port (ports self) ->
                uninterrupted (attached h (device port)) = true) ->
  attempts (trace (test_all_ports h self)) = map device (ports self).
Proof.
  intros Hu.
  assert (Hc : ports self = [] \/ ports self <> [])
    by (destruct (ports self); [left | right]; congruence).
  destruct Hc as [E|Hne].
  - unfold test_all_ports. rewrite E. reflexivity.
  - destruct (test_each_runs h (ports self) Hu []) as (results & Hv & _ & Ha).
    cbn [app] in Hv.
    rewrite (test_all_ports_trace h self results Hne Hv).
    cbn [attempts]. rewrite !attempts_app, Ha.
    assert (Hm : attempts (map (fun entry => EPrint (summary_line entry))
                               results) = [])
      by (clear; induction results; cbn; auto).
    rewrite Hm. cbn [attempts app]. now rewrite app_nil_r.
Qed.

(** ** A scan followed by a batch run *)

(** After [detect_ports] returns, the flag it gives tells whether
    [test_all_ports] will probe anything: with [False] the batch touches no
    port; with [True] it opens exactly the ports of the listing, in the
    order of the listing (when no port call is interrupted). *)
Theorem scan_then_test_all (h : host) (self self' : MCTCTester) (ok : bool) :
  value (detect_ports h self) = inr (self', ok) ->
  listing h = inr (ports self')
  /\ ok = truthy (ports self')
  /\ (ok = false ->
      value (test_all_ports h self') = inr tt
      /\ wire (trace (test_all_ports h self')) = [])
  /\ (ok = true ->
      (forall port, In port (ports self') ->
                    uninterrupted (attached h (device port)) = true) ->
      value (test_all_ports h self') = inr tt
      /\ attempts (trace (test_all_ports h self')) = map device (ports self')).
Proof.
  rewrite detect_ports_value.
  destruct (listing h) as [e|[|port others]]; [discriminate| |];
    intros [= <- <-]; cbn [ports truthy].
  - split; [reflexivity|]. split; [reflexivity|].
    split; [intros _; split; reflexivity | discriminate].
  - split; [reflexivity|]. split; [reflexivity|].
    split; [discriminate|]. intros _ Hu. split.
    + now apply test_all_ports_value.
    + now apply test_all_ports_attempts.
Qed.

Lemma scan_then_test_all_witness :
  value (detect_ports bench init) = inr ({| ports := bench_ports |}, true)
  /\ attempts (trace (test_all_ports bench {| ports := bench_ports |}))
     = [COM1; COM2; COM3].
Proof.
  assert (Hd : value (detect_ports bench init)
               = inr ({| ports := bench_ports |}, true)) by reflexivity.
  split; [exact Hd|].
  destruct (scan_then_test_all bench init _ _ Hd) as (_ & _ & _ & H).
  refine (proj2 (H eq_refl _)).
  intros port [<-|[<-|[<-|[]]]]; reflexivity.
Defined.

(** ** The table of [display_ports] *)

Lemma pad_length (w : nat) (s : str) :
  List.length (pad w s) = Nat.max w (List.length s).
Proof. unfold pad. rewrite length_app, repeat_length. lia. Qed.

Lemma decimal_width_upto :
  forallb (fun n => (List.length (decimal (N.of_nat n)) <=? 4)%nat)
          (seq 0 (N.to_nat 10000)) = true.
Proof. vm_compute. reflexivity. Qed.

(** Numbers below ten thousand take at most four digits. *)
Lemma decimal_width (n : N) :
  n < 10000 -> (List.length (decimal n) <= 4)%nat.
Proof.
  intros Hn. pose proof decimal_width_upto as H.
  rewrite forallb_forall in H.
  rewrite <- (N2Nat.id n). apply Nat.leb_le, H, in_seq. lia.
Qed.

Lemma display_rows_value (todo : list ListPortInfo) (i : nat) :
  value (display_rows i todo) = inr tt.
Proof.
  revert i. induction todo as [|port todo IH]; intros i; [reflexivity|].
  cbn [display_rows]. now rewrite value_bind, IH.
Qed.

Lemma display_rows_nth (todo : list ListPortInfo) (i k : nat)
      (port : ListPortInfo) :
  nth_error todo k = Some port ->
  nth_error (printed (trace (display_rows i todo))) k
  = Some (display_row (i + k) port).
Proof.
  revert i k. induction todo as [|q todo IH]; intros i [|k] Hk;
    cbn in Hk; try discriminate.
  - injection Hk as <-. cbn [display_rows]. rewrite trace_bind.
    cbn. now rewrite Nat.add_0_r.
  - cbn [display_rows]. rewrite trace_bind.
    cbn [print emit value trace fst snd app printed nth_error].
    rewrite (IH (S i) k Hk). f_equal. f_equal. lia.
Qed.

Lemma display_rows_count (todo : list ListPortInfo) (i : nat) :
  List.length (printed (trace (display_rows i todo))) = List.length todo.
Proof.
  revert i. induction todo as [|q todo IH]; intros i; [reflexivity|].
  cbn [display_rows]. rewrite trace_bind.
  cbn [print emit value trace fst snd app printed List.length].
  now rewrite IH.
Qed.

Lemma printed_app (t u : list event) : printed (t ++ u) = printed t ++ printed u.
Proof. induction t as [|[] t IH]; cbn; congruence. Qed.

Lemma display_row_width (i : nat) (port : ListPortInfo) :
  N.of_nat i < 9999 ->
  List.length (display_row i port)
  = (54 + Nat.max 12 (List.length (device port)))%nat.
Proof.
  intros Hi. unfold display_row. rewrite !length_app, !pad_length.
  assert (Hn : (List.length (decimal (N.of_nat i + 1)) <= 4)%nat)
    by (apply decimal_width; lia).
  rewrite length_firstn.
  change (List.length (lit "│ ")) with 2%nat.
  change (List.length (lit " │ ")) with 3%nat.
  change (List.length (lit " │")) with 2%nat.
  lia.
Qed.

(** [display_ports] prints, after three heading lines, one row per port in
    the order of the list, numbered from 1, and then one closing line.  A
    row is 54 + max(12, length of the device name) code points wide: rows
    line up when the device names have at most 12 code points, and a longer
    name is printed in full and widens its row.  The description column is
    always 40 wide: a longer description is cut, a shorter one padded. *)
Theorem display_ports_rows (self : MCTCTester) (i : nat) (port : ListPortInfo) :
  nth_error (ports self) i = Some port ->
  N.of_nat i < 9999 ->
  List.length (printed (trace (display_ports self)))
  = (List.length (ports self) + 4)%nat
  /\ nth_error (printed (trace (display_ports self))) (3 + i)
     = Some (display_row i port)
  /\ List.length (display_row i port)
     = (54 + Nat.max 12 (List.length (device port)))%nat
  /\ (exists shown,
        display_row i port
        = lit "│ " ++ pad 4 (decimal (N.of_nat i + 1)) ++ lit " │ "
          ++ device port ++ repeat 0x20 (12 - List.length (device port))
          ++ lit " │ " ++ shown ++ lit " │"
        /\ List.length shown = 40%nat
        /\ firstn (Nat.min 40 (List.length (description port))) shown
           = firstn 40 (description port)).
Proof.
  intros Hi Hlt.
  assert (Ht : trace (display_ports self)
               = EPrint (lit "┌──────┬──────────────┬────────────────────────────────────────────────┐")
                 :: EPrint (lit "│  #   │    Port      │            Description               ──────────│")
                 :: EPrint (lit "├──────┼──────────────┼──────────────────────────────────────┤")
                 :: trace (display_rows 0 (ports self))
                 ++ [EPrint (lit "└──────┴──────────────┴──────────────────────────────────────┘")]).
  { unfold display_ports.
    destruct (ports self) as [|q l] eqn:E; [now destruct i|].
    cbn [truthy negb]. rewrite <- E.
    pose proof (display_rows_value (ports self) 0) as Hv.
    repeat first
      [ rewrite trace_bind | rewrite value_bind | rewrite Hv
      | progress cbn [print emit value trace fst snd app]
      | progress cbv beta iota ].
    reflexivity. }
  split; [|split; [|split]].
  - rewrite Ht. cbn [printed List.length]. rewrite printed_app, length_app.
    rewrite display_rows_count. cbn. lia.
  - rewrite Ht. cbn [printed Nat.add nth_error]. rewrite printed_app.
    rewrite nth_error_app1
      by (rewrite display_rows_count; apply nth_error_Some; congruence).
    exact (display_rows_nth (ports self) 0 i port Hi).
  - now apply display_row_width.
  - exists (pad 40 (firstn 40 (description port))). split; [|split].
    + unfold display_row. unfold pad at 2. now rewrite <- !app_assoc.
    + rewrite pad_length, length_firstn. lia.
    + unfold pad. rewrite firstn_app.
      assert (E : (Nat.min 40 (List.length (description port))
                   - List.length (firstn 40 (description port)) = 0)%nat)
        by (rewrite length_firstn; lia).
      rewrite E, firstn_all2 by (rewrite length_firstn; lia).
      apply app_nil_r.
Qed.

Lemma display_ports_rows_witness :
  nth_error (ports {| ports := bench_ports |}) 1
  = Some {| device := COM2; description := lit "Bluetooth" |}
  /\ nth_error (printed (trace (display_ports {| ports := bench_ports |}))) 4
     = Some (lit "│ 2    │ COM2         │ Bluetooth                                │").
Proof.
  split; [reflexivity|].
  refine (eq_trans
            (proj1 (proj2 (display_ports_rows
                             {| ports := bench_ports |} 1 _ eq_refl _))) _).
  - cbn. lia.
  - vm_compute. reflexivity.
Defined.

(** ** Testing one port chosen by the user *)

Lemma wire_prints (lines : list str) : wire (map EPrint lines) = [].
Proof. induction lines; cbn; auto. Qed.

Lemma display_rows_prints (todo : list ListPortInfo) (i : nat) :
  trace (display_rows i todo)
  = map EPrint (printed (trace (display_rows i todo))).
Proof.
  revert i. induction todo as [|port todo IH]; intros i; [reflexivity|].
  cbn [display_rows]. rewrite trace_bind.
  cbn [print emit value trace fst snd app printed map]. now rewrite <- IH.
Qed.

(** [display_ports] only prints. *)
Lemma display_ports_prints (self : MCTCTester) :
  value (display_ports self) = inr tt
  /\ trace (display_ports self)
     = map EPrint (printed (trace (display_ports self))).
Proof.
  unfold display_ports. destruct (truthy (ports self)); cbn [negb];
    [|split; reflexivity].
  pose proof (display_rows_value (ports self) 0) as Hv.
  pose proof (display_rows_prints (ports self) 0) as Ht.
  split.
  - repeat first
      [ rewrite value_bind | rewrite Hv
      | progress cbn [print emit value trace fst snd]
      | progress cbv beta iota ].
    reflexivity.
  - repeat first
      [ rewrite trace_bind | rewrite value_bind | rewrite Hv
      | progress cbn [print emit value trace fst snd app printed map]
      | progress cbv beta iota ].
    rewrite printed_app, map_app, <- Ht. reflexivity.
Qed.

Section Choice.

Variable h : host.
Variable isdigit : str -> bool.
Variable int : str -> exn + Z.

(** The run of [test_single_port] when it comes to probe the port [p]. *)
Lemma test_single_port_probing (self : MCTCTester) (typed p : str) :
  ports self <> [] ->
  (if isdigit (strip typed) then
     exists n port,
       int (strip typed) = inr n /\ (1 <= n)%Z
       /\ nth_error (ports self) (Z.to_nat (n - 1)) = Some port
       /\ device port = p
   else strip typed = p) ->
  value (test_single_port h isdigit int self typed)
  = match value (test_connection h p (lit "Port " ++ p)) with
    | inl e => inl e
    | inr _ => inr tt
    end
  /\ trace (test_single_port h isdigit int self typed)
     = trace (display_ports self)
       ++ EInput (nl ++ lit "Enter port number or port name: ")
       :: trace (test_connection h p (lit "Port " ++ p))
       ++ match value (test_connection h p (lit "Port " ++ p)) with
          | inl _ => []
          | inr _ => [EInput (nl ++ lit "Press Enter to continue...")]
          end.
Proof.
  intros Hne Hc. unfold test_single_port.
  destruct (display_ports_prints self) as [Dv _].
  destruct (ports self) as [|q l] eqn:E; [congruence|].
  cbn [truthy negb]. rewrite <- E in *.
  destruct (isdigit (strip typed)) eqn:Hd.
  - destruct Hc as (n & port & Hi & Hn & Hp & <-).
    assert (Hr : ((0 <=? n - 1) && (n - 1 <? Z.of_N (len (ports self))))%Z
                 = true).
    { apply andb_true_iff. split; [apply Z.leb_le; lia|].
      apply Z.ltb_lt. unfold len.
      assert (Z.to_nat (n - 1) < List.length (ports self))%nat
        by (apply nth_error_Some; congruence).
      lia. }
    unfold getitem, ask, pure.
    split;
      repeat first
        [ rewrite trace_bind | rewrite value_bind
        | rewrite Dv | rewrite Hd | rewrite Hi | rewrite Hr | rewrite Hp
        | progress cbn [print input emit ret value trace fst snd app]
        | progress cbv beta iota ];
      destruct (value (test_connection h (device port) _));
      repeat first
        [ rewrite trace_bind | rewrite value_bind
        | progress cbn [print input emit ret value trace fst snd app]
        | progress cbv beta iota ];
      rewrite ?app_nil_r; reflexivity.
  - subst p. unfold ask.
    split;
      repeat first
        [ rewrite trace_bind | rewrite value_bind | rewrite Dv | rewrite Hd
        | progress cbn [print input emit ret value trace fst snd app]
        | progress cbv beta iota ];
      destruct (value (test_connection h (strip typed) _));
      repeat first
        [ rewrite trace_bind | rewrite value_bind
        | progress cbn [print input emit ret value trace fst snd app]
        | progress cbv beta iota ];
      rewrite ?app_nil_r; reflexivity.
Qed.

Lemma attempts_prints (lines : list str) : attempts (map EPrint lines) = [].
Proof. induction lines; cbn; auto. Qed.

Lemma test_single_port_probes (self : MCTCTester) (typed p : str) :
  ports self <> [] ->
  (if isdigit (strip typed) then
     exists n port,
       int (strip typed) = inr n /\ (1 <= n)%Z
       /\ nth_error (ports self) (Z.to_nat (n - 1)) = Some port
       /\ device port = p
   else strip typed = p) ->
  attempts (trace (test_single_port h isdigit int self typed)) = [p]
  /\ wire (trace (test_single_port h isdigit int self typed))
     = wire (trace (test_connection h p (lit "Port " ++ p)))
  /\ (uninterrupted (attached h p) = true ->
      value (test_single_port h isdigit int self typed) = inr tt).
Proof.
  intros Hne Hc.
  destruct (test_single_port_probing self typed p Hne Hc) as [Hv Ht].
  destruct (display_ports_prints self) as [_ Hd].
  rewrite Ht, Hd. split; [|split].
  - rewrite attempts_app, attempts_prints. cbn [app attempts].
    rewrite attempts_app, probe_attempts.
    now destruct (value (test_connection h p _)).
  - rewrite wire_app, wire_prints. cbn [app].
    change (wire (EInput ?q :: ?t)) with (wire t).
    rewrite wire_app.
    destruct (value (test_connection h p _)); cbn; now rewrite app_nil_r.
  - intros Hu. rewrite Hv.
    destruct (probe_returns h p (lit "Port " ++ p) Hu) as (s & -> & _).
    reflexivity.
Qed.


(** Anything typed that [str.isdigit] rejects is taken, once trimmed, as the
    name of the port to probe, whether it is listed or not; an empty line
    makes the probe open the port of empty name. *)
Theorem typed_text_is_port_name (self : MCTCTester) (typed : str) :
  ports self <> [] ->
  isdigit (strip typed) = false ->
  attempts (trace (test_single_port h isdigit int self typed)) = [strip typed]
  /\ wire (trace (test_single_port h isdigit int self typed))
     = wire (trace (test_connection h (strip typed)
                                    (lit "Port " ++ strip typed)))
  /\ (uninterrupted (attached h (strip typed)) = true ->
      value (test_single_port h isdigit int self typed) = inr tt).
Proof.
  intros Hne Hd. apply test_single_port_probes; [exact Hne|].
  now rewrite Hd.
Qed.

(** No port is touched when the list is empty (nothing is asked then) or
    when the number typed is outside 1..len(ports); in particular 0 does not
    wrap around to the last port. *)
Theorem no_port_touched_without_valid_choice (self : MCTCTester) (typed : str) :
  (ports self = [] ->
   value (test_single_port h isdigit int self typed) = inr tt
   /\ trace (test_single_port h isdigit int self typed)
      = [EPrint (lit "No ports available");
         EInput (nl ++ lit "Press Enter to continue...")])
  /\ (forall n,
        ports self <> [] ->
        isdigit (strip typed) = true ->
        int (strip typed) = inr n ->
        (n < 1 \/ Z.of_nat (List.length (ports self)) < n)%Z ->
        value (test_single_port h isdigit int self typed) = inr tt
        /\ wire (trace (test_single_port h isdigit int self typed)) = []
        /\ In (lit "❌ Invalid port number!")
              (printed (trace (test_single_port h isdigit int self typed)))).
Proof.
  split.
  - intros E. unfold test_single_port, display_ports. rewrite E.
    split; reflexivity.
  - intros n Hne Hd Hi Hn. unfold test_single_port.
    destruct (display_ports_prints self) as [Dv Dt].
    destruct (ports self) as [|q l] eqn:E; [congruence|].
    cbn [truthy negb]. rewrite <- E in *.
    assert (Hr : ((0 <=? n - 1) && (n - 1 <? Z.of_N (len (ports self))))%Z
                 = false).
    { apply andb_false_iff. unfold len.
      destruct Hn; [left; apply Z.leb_gt; lia | right; apply Z.ltb_ge; lia]. }
    unfold ask, pure.
    split; [|split];
      repeat first
        [ rewrite trace_bind | rewrite value_bind
        | rewrite Dv | rewrite Hd | rewrite Hi | rewrite Hr
        | progress cbn [print input emit ret value trace fst snd app]
        | progress cbv beta iota ].
    + reflexivity.
    + rewrite Dt, wire_app, wire_prints. reflexivity.
    + rewrite printed_app. apply in_or_app. right. cbn. auto.
Qed.

(** [int] is called outside any [try]: when it rejects a text that
    [str.isdigit] accepted, its exception leaves [test_single_port] before
    any port is touched. *)
Theorem rejected_number_escapes (self : MCTCTester) (typed : str) (e : exn) :
  ports self <> [] ->
  isdigit (strip typed) = true ->
  int (strip typed) = inl e ->
  value (test_single_port h isdigit int self typed) = inl e
  /\ wire (trace (test_single_port h isdigit int self typed)) = [].
Proof.
  intros Hne Hd Hi. unfold test_single_port.
  destruct (display_ports_prints self) as [Dv Dt].
  destruct (ports self) as [|q l] eqn:E; [congruence|].
  cbn [truthy negb]. rewrite <- E in *. unfold ask, pure.
  split;
    repeat first
      [ rewrite trace_bind | rewrite value_bind
      | rewrite Dv | rewrite Hd | rewrite Hi
      | progress cbn [print input emit ret value trace fst snd app]
      | progress cbv beta iota ].
  - reflexivity.
  - rewrite Dt, wire_app, wire_prints. reflexivity.
Qed.

End Choice.


Lemma typed_text_is_port_name_witness :
  ports {| ports := bench_ports |} <> []
  /\ ascii_isdigit (strip []) = false
  /\ attempts (trace (test_single_port bench ascii_isdigit ascii_int
                                       {| ports := bench_ports |} []))
     = [[]].
Proof.
  assert (Hne : ports {| ports := bench_ports |} <> []) by discriminate.
  split; [exact Hne|]. split; [reflexivity|].
  exact (proj1 (typed_text_is_port_name
                  bench ascii_isdigit ascii_int {| ports := bench_ports |}
                  [] Hne eq_refl)).
Defined.

Lemma no_port_touched_without_valid_choice_witness :
  ascii_int (strip (lit "0")) = inr 0%Z
  /\ wire (trace (test_single_port bench ascii_isdigit ascii_int
                                   {| ports := bench_ports |} (lit "0")))
     = [].
Proof.
  split; [reflexivity|].
  refine (proj1 (proj2 (proj2 (no_port_touched_without_valid_choice
                                 bench ascii_isdigit ascii_int
                                 {| ports := bench_ports |} (lit "0"))
                              0%Z _ eq_refl eq_refl _))).
  - discriminate.
  - left. lia.
Defined.

Lemma rejected_number_escapes_witness :
  digit_or_superscript_two (strip (lit "²")) = true
  /\ ascii_int (strip (lit "²"))
     = inl (OtherException (lit "ValueError") (lit "invalid literal for int()"))
  /\ value (test_single_port bench digit_or_superscript_two ascii_int
                             {| ports := bench_ports |} (lit "²"))
     = inl (OtherException (lit "ValueError")
                           (lit "invalid literal for int()")).
Proof.
  split; [reflexivity|]. split; [reflexivity|].
  refine (proj1 (rejected_number_escapes
                   bench digit_or_superscript_two ascii_int
                   {| ports := bench_ports |} (lit "²") _ _ eq_refl eq_refl)).
  discriminate.
Defined.

(** ** [script.py]: the probe and the main block *)

(** One open is attempted per probe of [script.py], on the port asked for. *)
Lemma script_attempts (h : host) (p ct : str) :
  attempts (trace (script.test_serial_connection h p ct)) = [p].
Proof. rewrite <- attempts_wire. explore; reflexivity. Qed.



Lemma list_ports_prints (todo : list ListPortInfo) (i : nat) :
  value (script.list_ports i todo) = inr tt
  /\ trace (script.list_ports i todo)
     = map EPrint (printed (trace (script.list_ports i todo))).
Proof.
  revert i. induction todo as [|port todo IH]; intros i; [split; reflexivity|].
  destruct (IH (S i)) as [IHv IHt].
  cbn [script.list_ports]. rewrite value_bind, trace_bind.
  cbn [print emit value trace fst snd app printed map].
  split; [exact IHv | now rewrite <- IHt].
Qed.

(** The main block of [script.py] probes the two ports named by the user in
    the order asked, the dedicated serial port first; an answer that is
    blank once trimmed skips its probe.  A failure on the first port does
    not keep the second from being probed. *)
Theorem main_probes_named_ports (h : host) (found : list ListPortInfo)
        (typed_serial typed_usb : str) :
  listing h = inr found ->
  uninterrupted (attached h (strip typed_serial)) = true ->
  uninterrupted (attached h (strip typed_usb)) = true ->
  value (script.main h typed_serial typed_usb) = inr tt
  /\ attempts (trace (script.main h typed_serial typed_usb))
     = filter truthy [strip typed_serial; strip typed_usb].
Proof.
  intros Hl Hs Hu. unfold script.main, comports, ask.
  destruct (list_ports_prints found 0) as [Lv Lt].
  pose proof (script_returns h (strip typed_serial) (lit "SERIAL") Hs) as Vs.
  pose proof (script_returns h (strip typed_usb) (lit "USB-SERIAL") Hu) as Vu.
  pose proof (script_attempts h (strip typed_serial) (lit "SERIAL")) as As.
  pose proof (script_attempts h (strip typed_usb) (lit "USB-SERIAL")) as Au.
  destruct (strip typed_serial) as [|c s] eqn:Es;
    destruct (strip typed_usb) as [|d u] eqn:Eu;
    cbn [filter truthy];
    (split;
     [ repeat first
         [ rewrite value_bind | rewrite Hl | rewrite Lv | rewrite Es
         | rewrite Eu | rewrite Vs | rewrite Vu
         | progress cbn [print emit ret value trace fst snd truthy]
         | progress cbv beta iota ];
       reflexivity
     | repeat first
         [ rewrite trace_bind | rewrite value_bind | rewrite Hl | rewrite Lv
         | rewrite Es | rewrite Eu
         | rewrite Vs | rewrite Vu | rewrite attempts_app
         | rewrite As | rewrite Au
         | progress cbn [print emit ret value trace fst snd truthy attempts app]
         | progress cbv beta iota ];
       rewrite Lt, attempts_prints; reflexivity ]).
Qed.

Lemma main_probes_named_ports_witness :
  listing bench = inr bench_ports
  /\ attempts (trace (script.main bench (lit " COM2 ") (lit "   ")))
     = [COM2].
Proof.
  split; [reflexivity|].
  exact (proj2 (main_probes_named_ports bench bench_ports
                  (lit " COM2 ") (lit "   ") eq_refl eq_refl eq_refl)).
Defined.

(** The listing call of the main block is outside any [try]: when it raises,
    the exception ends the script before the ports are listed, any question
    is asked or any port is opened. *)
Theorem main_listing_failure_escapes (h : host) (e : exn)
        (typed_serial typed_usb : str) :
  listing h = inl e ->
  value (script.main h typed_serial typed_usb) = inl e
  /\ trace (script.main h typed_serial typed_usb)
     = [EPrint (lit "MCTC-MIB-A Connection Tester");
        EPrint (times (lit "=") 50); EComports].
Proof.
  intros Hl. unfold script.main, comports.
  split;
    repeat first
      [ rewrite trace_bind | rewrite value_bind | rewrite Hl
      | progress cbn [print emit ret value trace fst snd app]
      | progress cbv beta iota ];
    reflexivity.
Qed.

Lemma main_listing_failure_escapes_witness :
  listing broken_listing
  = inl (OtherException (lit "OSError") (lit "listing failed"))
  /\ value (script.main broken_listing COM1 COM2)
     = inl (OtherException (lit "OSError") (lit "listing failed")).
Proof.
  split; [reflexivity|].
  exact (proj1 (main_listing_failure_escapes broken_listing _ COM1 COM2
                  eq_refl)).
Defined.

(** ** What the user is told of a failure *)

Lemma handler_reports (e : exn) :
  is_Exception e = true ->
  In (EPrintError (if is_SerialException e then lit "❌ SERIAL ERROR: "
                   else lit "❌ UNEXPECTED ERROR: ") e)
     (trace (test_connection_handler e)).
Proof. destruct e; cbn; auto; discriminate. Qed.

Ltac find_report :=
  cbn [app In];
  repeat first [ apply in_or_app; right | right ];
  now apply handler_reports.

(** A failed probe tells the user why: the exception raised by the first
    failing call is printed after the heading of the clause that caught it,
    "SERIAL ERROR" for a [SerialException] and "UNEXPECTED ERROR" for any
    other exception; a reply that does not decode is reported in the same
    way. *)
Theorem failure_is_reported (h : host) (p ct : str) :
  (forall e,
     first_failure (attached h p) = Some e -> is_Exception e = true ->
     In (EPrintError (if is_SerialException e then lit "❌ SERIAL ERROR: "
                      else lit "❌ UNEXPECTED ERROR: ") e)
        (trace (test_connection h p ct)))
  /\ (forall r,
        line_received (attached h p) r -> utf8_decode (octets r) = None ->
        In (EPrintError (lit "❌ UNEXPECTED ERROR: ") (UnicodeDecodeError r))
           (trace (test_connection h p ct))).
Proof.
  split.
  - intros e Hf He. unfold first_failure in Hf.
    destruct (on_open (attached h p)) as [e0|] eqn:Ho;
      [injection Hf as ->; run; find_report|].
    destruct (on_reset_input_buffer (attached h p)) as [e0|] eqn:Hi;
      [injection Hf as ->; run; find_report|].
    destruct (on_reset_output_buffer (attached h p)) as [e0|] eqn:Hu;
      [injection Hf as ->; run; find_report|].
    destruct (on_write (attached h p) test_command) as [e0|] eqn:Hw;
      [injection Hf as ->; run; find_report|].
    destruct (on_readline (attached h p)) as [e0|r] eqn:Hr; [|discriminate].
    injection Hf as ->. run. find_report.
  - intros r Hl Hd. port_facts. destruct r as [|b r]; [discriminate|].
    run. apply in_or_app. right. left. reflexivity.
Qed.

Lemma failure_is_reported_witness :
  first_failure (attached (only (write_fails unplugged)) COM1) = Some unplugged
  /\ In (EPrintError (lit "❌ SERIAL ERROR: ") unplugged)
        (trace (test_connection (only (write_fails unplugged)) COM1 COM1)).
Proof.
  split; [reflexivity|].
  exact (proj1 (failure_is_reported (only (write_fails unplugged)) COM1 COM1)
               unplugged eq_refl eq_refl).
Defined.
